(** * mp4_to_gb: the RGBDS syntax patcher and the conversion pipeline

    A shallow embedding of [src/mp4_to_gb.py] (class [GameBoyVideoConverter]
    and [main]) together with the properties its specification states.

    Conventions of the embedding.
    - A Python [str] holding file text is a list of Unicode code points
      ([pystr]); messages, paths and command-line words are Rocq strings.
    - A Python [float] is a primitive binary64 float.
    - The host is POSIX: [str(Path)] joins the parts with [/], and text-mode
      writing leaves ['\n'] as it is.  Reading in text mode applies Python's
      universal-newlines translation.
    - What the script cannot decide by itself (external processes, the
      programs found on PATH, importable modules, directory operations,
      number formatting) is a field of the [Host] record; every theorem
      holds for every host.
    - Exceptions raised by the script's own operations are modelled where
      the source can raise them: [ZeroDivisionError] for float division,
      [KeyError] for a dictionary subscript, [OSError] for file operations
      on a missing path or a directory, and whatever the host reports for
      an external process.  [sys.exit] is an outcome of its own.
    - The file system is a finite map from resolved paths to files and
      directories.  Which file a path given as text denotes is the host's
      [abspath], so two spellings of one file are one key.  Not modelled:
      whether the directory a new file goes into exists, permissions, and
      file content that cannot be decoded as text.
    - Not modelled: the parsing of the command line by [argparse] ([main]
      starts from the parsed arguments, line 273; the exits of [argparse]
      itself, status 2 for a refused command line and 0 for [--help], happen
      before), the error stream, and an interrupt from the keyboard. *)

From Stdlib Require Import ZArith NArith List Ascii String Floats Lia Bool.
From Stdlib Require DecimalString.
From stdpp Require Import base option gmap strings list.

Open Scope N_scope.

(** ** Python text: [str] as a list of code points *)

Module PyStr.

Definition pystr := list N.

(** A literal of the source, character by character. *)
Definition lit (s : string) : pystr :=
  List.map N_of_ascii (list_ascii_of_string s).

Definition LF : N := 10.
Definition CR : N := 13.

(** [str.isspace] on one code point, which is also the regular expression
    class [\s] on [str] patterns (both are [Py_UNICODE_ISSPACE]). *)
Definition isspace (c : N) : bool :=
  ((9 <=? c) && (c <=? 13)) || ((28 <=? c) && (c <=? 32))
  || (c =? 133) || (c =? 160) || (c =? 5760)
  || ((8192 <=? c) && (c <=? 8202))
  || (c =? 8232) || (c =? 8233) || (c =? 8239) || (c =? 8287) || (c =? 12288).

(** The class [[A-Za-z_]]. *)
Definition is_ident_start (c : N) : bool :=
  ((65 <=? c) && (c <=? 90)) || ((97 <=? c) && (c <=? 122)) || (c =? 95).

(** The class [[A-Za-z0-9_]]. *)
Definition is_ident_char (c : N) : bool :=
  is_ident_start c || ((48 <=? c) && (c <=? 57)).

(** The class matched by [.] (no DOTALL flag): anything but a line feed. *)
Definition is_dot (c : N) : bool := negb (c =? LF).

Fixpoint lstrip (s : pystr) : pystr :=
  match s with
  | c :: t => if isspace c then lstrip t else s
  | [] => []
  end.

Definition rstrip (s : pystr) : pystr := rev (lstrip (rev s)).

(** [s.strip()] *)
Definition strip (s : pystr) : pystr := rstrip (lstrip s).

(** [s.startswith(p)] *)
Fixpoint startswith (p s : pystr) : bool :=
  match p, s with
  | [], _ => true
  | a :: p', b :: s' => (a =? b) && startswith p' s'
  | _ :: _, [] => false
  end.

(** [sub in s] *)
Fixpoint contains (sub s : pystr) : bool :=
  startswith sub s ||
  match s with
  | [] => false
  | _ :: t => contains sub t
  end.

(** [s.split(sep)] for a one-character separator; the result is never
    empty. *)
Fixpoint split (sep : N) (s : pystr) : list pystr :=
  match s with
  | [] => [[]]
  | c :: t =>
      if c =? sep then [] :: split sep t
      else match split sep t with
           | l :: ls => (c :: l) :: ls
           | [] => [[c]]
           end
  end.

(** [sep.join(ls)] *)
Fixpoint join (sep : pystr) (ls : list pystr) : pystr :=
  match ls with
  | [] => []
  | [l] => l
  | l :: ls' => l ++ sep ++ join sep ls'
  end.

(** The longest prefix whose characters satisfy [p], and what follows it:
    how a greedy [c*] consumes input. *)
Fixpoint span (p : N -> bool) (s : pystr) : pystr * pystr :=
  match s with
  | c :: t =>
      if p c then let '(a, b) := span p t in (c :: a, b) else ([], s)
  | [] => ([], [])
  end.

(** Text-mode reading with [newline=None]: ["\r\n"] and a lone ["\r"] both
    become ["\n"]. *)
Fixpoint universal_newlines (s : pystr) : pystr :=
  match s with
  | [] => []
  | c :: t =>
      if c =? CR then
        match t with
        | d :: t' => if d =? LF then LF :: universal_newlines t'
                     else LF :: universal_newlines t
        | [] => [LF]
        end
      else c :: universal_newlines t
  end.

End PyStr.

Import PyStr.

(** ** The per-line rewriting rule of [patch_rgbds_syntax] *)

(** The literals of the method, as code points. *)
Definition DEF_ : pystr := Eval vm_compute in lit "DEF ".
Definition EQU : pystr := Eval vm_compute in lit "EQU".
Definition SEMICOLON : pystr := Eval vm_compute in lit ";".
Definition INCLUDE : pystr := Eval vm_compute in lit "INCLUDE".
Definition SECTION : pystr := Eval vm_compute in lit "SECTION".
Definition EXPORT : pystr := Eval vm_compute in lit "EXPORT".
Definition PATCHED_MARK : pystr :=
  Eval vm_compute in lit "DEF PULLDOWN_SKIPF EQU".

(** [re.match] on [line] of the pattern anchored by [^] and [$] whose three
    groups are [\s*], then [[A-Za-z_][A-Za-z0-9_]*], then [\s+EQU\s+.*]; the
    result is the three groups.  The character classes of neighbouring pieces are
    disjoint, so each greedy piece takes the whole run it can (a shorter
    take leaves a character the next piece refuses) and backtracking never
    finds another match.  [$] matches at the end of the line or just before
    a line feed that ends it. *)
Definition re_match_equ (line : pystr) : option (pystr * pystr * pystr) :=
  let '(indent, r1) := span isspace line in
  match r1 with
  | c :: r1' =>
      if is_ident_start c then
        let '(cs, r2) := span is_ident_char r1' in
        let '(ws1, r3) := span isspace r2 in
        match ws1 with
        | [] => None
        | _ :: _ =>
            if startswith EQU r3 then
              let '(ws2, r5) := span isspace (drop (length EQU) r3) in
              match ws2 with
              | [] => None
              | _ :: _ =>
                  let '(v, r6) := span is_dot r5 in
                  match r6 with
                  | [] | [_] => Some (indent, c :: cs, ws1 ++ EQU ++ ws2 ++ v)
                  | _ :: _ :: _ => None
                  end
              end
            else None
        end
      else None
  | [] => None
  end.

(** The test of lines 55-60: the lines the loop appends unchanged without
    trying the pattern. *)
Definition skipped (line : pystr) : bool :=
  startswith SEMICOLON (strip line)
  || contains DEF_ line
  || (match strip line with [] => true | _ :: _ => false end)
  || contains INCLUDE line
  || contains SECTION line
  || contains EXPORT line.

(** The body of the [for line in lines] loop: the element appended to
    [fixed_lines] for [line]. *)
Definition fix_line (line : pystr) : pystr :=
  if skipped line then line
  else match re_match_equ line with
       | Some (indent, symbol, rest) => indent ++ DEF_ ++ symbol ++ rest
       | None => line
       end.

(** [re.search] of "DEF PULLDOWN_SKIPF EQU" in [content]: the pattern has no
    metacharacter, so the search is a substring test. *)
Definition already_patched (content : pystr) : bool :=
  contains PATCHED_MARK content.

(** Lines 50-77: the text written back for a file that is not yet patched. *)
Definition patched_text (content : pystr) : pystr :=
  join [LF] (List.map fix_line (split LF content)).

(** ** Paths, file system and host *)

(** A resolved [pathlib.Path]: its parts below the root. *)
Abbreviation Path := (list string).

(** [p / name] *)
Definition joinpath (p : Path) (name : string) : Path := p ++ [name].

(** [str(p)] *)
Definition path_str (p : Path) : string :=
  match p with
  | [] => "/"
  | _ :: _ => String.concat "" (List.map (fun part => "/" +:+ part) p)
  end.

(** [p.name] *)
Definition path_name (p : Path) : string := List.last p "".

(** [name.rfind('.')], counted on the reversed name: the number of
    characters after the last dot. *)
Fixpoint chars_after_last_dot (rev_name : list ascii) : option nat :=
  match rev_name with
  | [] => None
  | c :: t => if Ascii.eqb c "."%char then Some 0%nat
              else option_map S (chars_after_last_dot t)
  end.

(** [PurePath.suffix] removed from a name: the stem.  The suffix starts at
    the last dot when that dot is neither the first nor the last
    character. *)
Definition stem (name : string) : string :=
  let cs := list_ascii_of_string name in
  match chars_after_last_dot (rev cs) with
  | Some k =>
      let i := (length cs - 1 - k)%nat in
      if ((0 <? i) && (0 <? k))%nat
      then string_of_list_ascii (take i cs) else name
  | None => name
  end.

(** [p.with_suffix(suffix)] for a path that has a name. *)
Definition with_suffix (p : Path) (suffix : string) : Path :=
  match rev p with
  | name :: parents => rev parents ++ [stem name +:+ suffix]
  | [] => []
  end.

Inductive node :=
  | File (data : pystr)
  | Dir.

Abbreviation filesystem := (gmap (list string) node).

Inductive exn :=
  | ZeroDivisionError
  | KeyError
  | OSError.

Record CompletedProcess := {
  returncode : Z;
  cp_stdout : string;
  cp_stderr : string
}.

(** What the script asks of its environment. *)
Record Host := {
  (** the file a path given as text denotes: [Path(p).resolve()], and the
      file [os.path.exists(p)] or [shutil.copy(_, p)] address *)
  abspath : string -> Path;
  (** [shutil.which(cmd)] finds a program *)
  which : string -> bool;
  (** [import name] succeeds *)
  importable : string -> bool;
  (** [subprocess.run(argv, cwd=..., capture_output=True, text=True)]: the
      process may change files, and starting it may fail *)
  subprocess_run :
    list string -> option Path -> filesystem ->
    (exn + CompletedProcess) * filesystem;
  (** [shutil.rmtree(p)] and [p.mkdir(parents=True)]; [None] when they
      raise *)
  rmtree : Path -> filesystem -> option filesystem;
  mkdir_parents : Path -> filesystem -> option filesystem;
  (** [len(list(p.glob('*.bmp')))] *)
  count_bmp : Path -> filesystem -> Z;
  (** [os.path.getsize(p)]; [None] when it raises *)
  getsize : Path -> filesystem -> option Z;
  (** [str(x)] of a float, [f"{x:.1f}"], [f"{n / (1024 * 1024):.2f}"] of
      an int, and [str(e)] of an exception *)
  str_float : float -> string;
  format_1f : float -> string;
  format_mb : Z -> string;
  str_exn : exn -> string
}.

(** [str(n)] of an int. *)
Definition str_int (n : Z) : string :=
  DecimalString.NilZero.string_of_int (Z.to_int n).

(** ** The world and the monad of the script *)

Inductive event :=
  | Spawn (argv : list string) (cwd : option Path).

(** [stdout] holds one entry per [print] call, oldest first; [spawned] the
    external commands started, oldest first. *)
Record world := {
  fs : filesystem;
  stdout : list string;
  spawned : list event
}.

Inductive outcome (A : Type) :=
  | Return (a : A)
  | Raise (e : exn)
  | SysExit (code : Z).
Arguments Return {A} a.
Arguments Raise {A} e.
Arguments SysExit {A} code.

Definition M (A : Type) : Type := world -> outcome A * world.

#[global] Instance M_ret : MRet M := fun A a w => (Return a, w).

#[global] Instance M_bind : MBind M := fun A B k m w =>
  match m w with
  | (Return a, w') => k a w'
  | (Raise e, w') => (Raise e, w')
  | (SysExit c, w') => (SysExit c, w')
  end.

Definition raise {A} (e : exn) : M A := fun w => (Raise e, w).

(** [sys.exit(code)] raises [SystemExit], which [except Exception] does
    not catch. *)
Definition sys_exit {A} (code : Z) : M A := fun w => (SysExit code, w).

(** [try: body  except Exception as e: handler(e)] *)
Definition try_except {A} (body : M A) (handler : exn -> M A) : M A :=
  fun w =>
    match body w with
    | (Raise e, w') => handler e w'
    | r => r
    end.

Definition print (line : string) : M unit := fun w =>
  (Return tt, {| fs := fs w; stdout := stdout w ++ [line];
                 spawned := spawned w |}).

Definition get_fs : M filesystem := fun w => (Return (fs w), w).

Definition set_fs (f : filesystem) : M unit := fun w =>
  (Return tt, {| fs := f; stdout := stdout w; spawned := spawned w |}).

(** [p.exists()] *)
Definition path_exists (p : Path) : M bool :=
  f ← get_fs; mret (bool_decide (is_Some (f !! p))).

(** [open(p, 'r').read()] *)
Definition read_text (p : Path) : M pystr :=
  f ← get_fs;
  match f !! p with
  | Some (File data) => mret (universal_newlines data)
  | Some Dir | None => raise OSError
  end.

(** [open(p, 'w').write(text)] *)
Definition write_text (p : Path) (text : pystr) : M unit :=
  f ← get_fs;
  match f !! p with
  | Some Dir => raise OSError
  | Some (File _) | None => set_fs (<[p := File text]> f)
  end.

(** [shutil.copy(src, dst)]: into [dst] when it is a directory;
    [SameFileError], an [OSError], when the file to write is [src] itself. *)
Definition shutil_copy (src dst : Path) : M unit :=
  f ← get_fs;
  match f !! src with
  | Some (File data) =>
      let target :=
        match f !! dst with
        | Some Dir => joinpath dst (path_name src)
        | Some (File _) | None => dst
        end in
      if bool_decide (target = src) then raise OSError
      else write_text target data
  | Some Dir | None => raise OSError
  end.

Definition lift_fs_op (op : filesystem -> option filesystem) : M unit :=
  f ← get_fs;
  match op f with
  | Some f' => set_fs f'
  | None => raise OSError
  end.

(** ** The converter *)

Definition nl : string := String "010"%char EmptyString.

(** [s * n] *)
Fixpoint str_repeat (s : string) (n : nat) : string :=
  match n with
  | O => ""
  | S n' => s +:+ str_repeat s n'
  end.

Record GameBoyVideoConverter := {
  repo_path : Path;
  frames_dir : Path;
  frames2data : Path;
  wav2data : Path;
  makefile : Path;
  video_asm : Path
}.

(** The [deps] dictionary of [check_dependencies], in insertion order. *)
Definition deps : list (string * string) :=
  [ ("ffmpeg", "FFmpeg (for video/audio processing)");
    ("python3", "Python 3");
    ("rgbasm", "RGBDS (Game Boy assembler)");
    ("rgblink", "RGBDS linker");
    ("rgbfix", "RGBDS ROM fixer") ].

(** The [configs] dictionary of [extract_frames]. *)
Definition configs : gmap Z (Z * Z) :=
  <[0%Z := (160, 72)%Z]> (<[1%Z := (160, 64)%Z]> (<[2%Z := (160, 56)%Z]> ∅)).

(** [configs.get(config, (160, 72))] *)
Definition resolution (config : Z) : Z * Z :=
  default (160, 72)%Z (configs !! config).

(** [a / b] on floats: Python raises where IEEE 754 would give an infinity
    or a NaN for a zero divisor. *)
Definition truediv (a b : float) : exn + float :=
  if PrimFloat.eqb b 0%float then inl ZeroDivisionError
  else inr (PrimFloat.div a b).

(** Line 138, [fps = 30 / pulldown]. *)
Definition derived_fps (pulldown : float) : exn + float :=
  truediv 30%float pulldown.

Definition lift_exn {A} (r : exn + A) : M A :=
  match r with
  | inl e => raise e
  | inr a => mret a
  end.

(** Lines 142-148: the words of the frame extraction command. *)
Definition frames_cmd (host : Host) (video_path : string) (frames : Path)
    (width height : Z) (fps : float) : list string :=
  [ "ffmpeg"; "-i"; video_path;
    "-vf"; "fps=" +:+ str_float host fps +:+ ",scale=" +:+ str_int width
           +:+ ":" +:+ str_int height +:+ ":flags=lanczos,format=gray";
    "-pix_fmt"; "gray";
    path_str (joinpath frames "%d.bmp") ].

(** Lines 163-172: the words of the audio extraction command. *)
Definition audio_cmd (video_path : string) (output_wav : Path) : list string :=
  [ "ffmpeg"; "-i"; video_path; "-vn"; "-acodec"; "pcm_s16le";
    "-ar"; "44100"; "-ac"; "2"; "-y"; path_str output_wav ].

(** Lines 191-200: the words of the [make] command.  [sound_path] is
    [None] or a path; a [Path] object is always true. *)
Definition make_cmd (host : Host) (config : Z) (pulldown : float)
    (sound_path : option Path) (f : filesystem) : list string :=
  [ "make"; "CONFIG=" +:+ str_int config;
    "PULLDOWN=" +:+ str_float host pulldown; "FRAMEEXT=bmp" ]
  ++ match sound_path with
     | Some p =>
         if bool_decide (is_Some (f !! p))
         then ["SOUND=" +:+ path_str p] else []
     | None => []
     end.

Section Converter.

Context (host : Host).

(** [GameBoyVideoConverter(repo)] *)
Definition new_converter (repo : string) : GameBoyVideoConverter :=
  let root := abspath host repo in
  {| repo_path := root;
     frames_dir := joinpath root "frames";
     frames2data := joinpath root "frames2data.py";
     wav2data := joinpath root "wav2data.py";
     makefile := joinpath root "Makefile";
     video_asm := joinpath (joinpath root "src") "video.asm" |}.

Definition run (argv : list string) (cwd : option Path)
    : M CompletedProcess := fun w =>
  let '(r, f') := subprocess_run host argv cwd (fs w) in
  let w' := {| fs := f'; stdout := stdout w;
               spawned := spawned w ++ [Spawn argv cwd] |} in
  match r with
  | inl e => (Raise e, w')
  | inr cp => (Return cp, w')
  end.

Definition patch_rgbds_syntax (self : GameBoyVideoConverter) : M bool :=
  present ← path_exists (video_asm self);
  if negb present then
    print ("⚠️  Warning: " +:+ path_str (video_asm self)
           +:+ " not found, skipping patch");;
    mret true
  else
    print "🔧 Checking RGBDS syntax compatibility...";;
    content ← read_text (video_asm self);
    if already_patched content then
      print "   ✅ Already patched";;
      mret true
    else
      print "   🔧 Patching for newer RGBDS...";;
      let backup := with_suffix (video_asm self) ".asm.bak" in
      has_backup ← path_exists backup;
      (if negb has_backup then
         shutil_copy (video_asm self) backup;;
         print ("   📋 Created backup: " +:+ path_name backup)
       else mret tt);;
      write_text (video_asm self) (patched_text content);;
      print "   ✅ Syntax patched successfully";;
      mret true.

(** Lines 92-95: the list [missing] after the loop over [deps]. *)
Definition missing_dependencies : list string :=
  fold_left
    (fun missing '(cmd, desc) =>
       if negb (which host cmd)
       then missing ++ ["  - " +:+ desc +:+ " (" +:+ cmd +:+ ")"]
       else missing)
    deps [].

Definition check_dependencies : M bool :=
  let missing := missing_dependencies in
  match missing with
  | _ :: _ =>
      print "❌ Error: Missing required dependencies:";;
      print (String.concat nl missing);;
      print (nl +:+ "Install RGBDS from: https://rgbds.gbdev.io/");;
      mret false
  | [] =>
      if negb (importable host "PIL") then
        print "❌ Error: Missing Python library 'Pillow'";;
        print "   Install with: pip install Pillow";;
        mret false
      else if negb (importable host "soundfile") then
        print "❌ Error: Missing Python library 'soundfile'";;
        print "   Install with: pip install soundfile";;
        mret false
      else mret true
  end.

Definition extract_frames (self : GameBoyVideoConverter)
    (video_path : string) (config : Z) (pulldown : float) : M bool :=
  print (nl +:+ "[1/5] 🎬 Extracting frames from video...");;
  let '(width, height) := resolution config in
  stale ← path_exists (frames_dir self);
  (if stale : bool then lift_fs_op (rmtree host (frames_dir self)) else mret tt);;
  lift_fs_op (mkdir_parents host (frames_dir self));;
  fps ← lift_exn (derived_fps pulldown);
  let cmd := frames_cmd host video_path (frames_dir self) width height fps in
  result ← run cmd None;
  if negb (returncode result =? 0)%Z then
    print ("❌ Error extracting frames: " +:+ cp_stderr result);;
    mret false
  else
    f ← get_fs;
    let frame_count := count_bmp host (frames_dir self) f in
    print ("   ✅ Extracted " +:+ str_int frame_count +:+ " frames at "
           +:+ str_int width +:+ "x" +:+ str_int height +:+ " ("
           +:+ format_1f host fps +:+ " fps)");;
    mret true.

Definition extract_audio (self : GameBoyVideoConverter)
    (video_path : string) (output_wav : Path) : M bool :=
  print (nl +:+ "[2/5] 🎵 Extracting audio...");;
  let cmd := audio_cmd video_path output_wav in
  result ← run cmd None;
  if negb (returncode result =? 0)%Z then
    print ("⚠️  Warning: Audio extraction failed: " +:+ cp_stderr result);;
    mret false
  else
    print "   ✅ Audio extracted";;
    mret true.

Definition build_rom (self : GameBoyVideoConverter) (output_rom : string)
    (config : Z) (pulldown : float) (sound_path : option Path) : M bool :=
  print (nl +:+ "[5/5] 🔨 Building Game Boy ROM...");;
  has_makefile ← path_exists (makefile self);
  if negb has_makefile then
    print ("❌ Error: Makefile not found at " +:+ path_str (makefile self));;
    mret false
  else
    f ← get_fs;
    result ← run (make_cmd host config pulldown sound_path f)
                 (Some (repo_path self));
    if negb (returncode result =? 0)%Z then
      print "❌ Error building ROM:";;
      print (cp_stderr result);;
      (if negb (String.eqb (cp_stdout result) "")
       then print (cp_stdout result) else mret tt);;
      mret false
    else
      let built_rom := joinpath (repo_path self) "video.gb" in
      built ← path_exists built_rom;
      if negb built then
        print "❌ Error: video.gb not found after build";;
        mret false
      else
        shutil_copy built_rom (abspath host output_rom);;
        f' ← get_fs;
        match getsize host (abspath host output_rom) f' with
        | None => raise OSError
        | Some size =>
            print ("   ✅ ROM built successfully: " +:+ output_rom +:+ " ("
                   +:+ format_mb host size +:+ " MB)");;
            mret true
        end.

End Converter.

(** ** The command line and [main] *)

(** The namespace [parser.parse_args()] returns. *)
Record Args := {
  input : string;
  output : string;
  repo : string;
  config : Z;
  fps_multiplier : float;
  no_audio : bool;
  skip_patch : bool
}.

(** The [configs] dictionary of [main]. *)
Definition config_names : gmap Z string :=
  <[0%Z := "160x72"]> (<[1%Z := "160x64"]> (<[2%Z := "160x56"]> ∅)).

Definition PATCH_FAILED_WARNING : string :=
  "⚠️  Warning: Patching failed, continuing anyway...".

Section Main.

Context (host : Host).

(** Lines 302-304. *)
Definition patch_step (args : Args) (converter : GameBoyVideoConverter)
    : M unit :=
  if negb (skip_patch args) then
    ok ← patch_rgbds_syntax converter;
    if negb ok then print PATCH_FAILED_WARNING else mret tt
  else mret tt.

(** Line 328. *)
Definition sound_file (args : Args) (audio_success : bool) (temp_wav : Path)
    : option Path :=
  if negb (no_audio args) && audio_success then Some temp_wav else None.

(** Lines 310-343, the body of the [try] statement. *)
Definition pipeline (args : Args) (converter : GameBoyVideoConverter)
    (temp_wav : Path) : M unit :=
  frames_ok ← extract_frames host converter (input args) (config args)
                             (fps_multiplier args);
  if negb frames_ok then sys_exit 1 else
  audio_success ←
    (if negb (no_audio args) then
       audio_success ← extract_audio host converter (input args) temp_wav;
       (if negb audio_success
        then print "⚠️  Continuing without audio..." else mret tt);;
       mret audio_success
     else mret false);
  print (nl +:+ "[3/5] 🔄 Converting frames to Game Boy format...");;
  print "   (This may take a while...)";;
  print (nl +:+ "[4/5] 🎼 Converting audio to Game Boy format...");;
  print "   (Processing audio data...)";;
  built ← build_rom host converter (output args) (config args)
                    (fps_multiplier args)
                    (sound_file args audio_success temp_wav);
  if negb built then sys_exit 1 else
  print (nl +:+ str_repeat "=" 70);;
  print "✅ SUCCESS! Game Boy ROM created!";;
  print (str_repeat "=" 70);;
  print (nl +:+ "📁 Output: " +:+ output args);;
  print (nl +:+ "🎮 Next steps:");;
  print "  1. Test in an emulator (BGB, SameBoy, mGBA)";;
  print "  2. Load onto a flashcart for real hardware";;
  print (nl +:+ "💡 Tips:");;
  print "  - If ROM is too large, try --fps-multiplier 0.5 for 15fps";;
  print "  - If ROM is too large, try --config 1 or --config 2";;
  print "  - Use --no-audio to reduce ROM size significantly";;
  print "".

(** Lines 348-352; the traceback goes to the error stream, which the world
    does not record. *)
Definition on_exception (e : exn) : M unit :=
  print (nl +:+ "❌ Error: " +:+ str_exn host e);;
  sys_exit 1.

(** Lines 273-355: [main()] from the point where [parser.parse_args()] has
    returned the namespace [args].  What [argparse] does before that is not
    part of this definition: it ends the process itself with status 2 for a
    command line it refuses and with status 0 after [--help]. *)
Definition main (args : Args) : M unit :=
  present ← path_exists (abspath host (input args));
  if negb present then
    print ("❌ Error: Input file '" +:+ input args +:+ "' not found");;
    sys_exit 1
  else
    let converter := new_converter host (repo args) in
    target_fps ← lift_exn (truediv 30%float (fps_multiplier args));
    print (str_repeat "=" 70);;
    print "🎮 MP4 to Game Boy ROM Converter";;
    print (str_repeat "=" 70);;
    print ("Input:       " +:+ input args);;
    print ("Output:      " +:+ output args);;
    name ← match config_names !! config args with
           | Some name => mret name
           | None => raise KeyError
           end;
    print ("Resolution:  " +:+ name +:+ " (config "
           +:+ str_int (config args) +:+ ")");;
    print ("Target FPS:  " +:+ format_1f host target_fps +:+ " fps (pulldown "
           +:+ str_float host (fps_multiplier args) +:+ ")");;
    print ("Audio:       "
           +:+ (if no_audio args then "Disabled" else "Enabled"));;
    print (str_repeat "=" 70);;
    print (nl +:+ "[0/5] 🔍 Checking dependencies...");;
    deps_ok ← check_dependencies host;
    if negb deps_ok then sys_exit 1 else
    print "   ✅ All dependencies found";;
    patch_step args converter;;
    let temp_wav := joinpath (repo_path converter) "sound.wav" in
    try_except (pipeline args converter temp_wav) on_exception.

End Main.

(** The exit status of the process for an outcome of [main]: an exception
    that reaches the top level ends the interpreter with status 1. *)
Definition exit_status (r : outcome unit) : Z :=
  match r with
  | Return _ => 0
  | SysExit code => code
  | Raise _ => 1
  end.

(** * Vocabulary of the properties, and samples *)

(** ** Shapes of text and of worlds *)

(** What follows a greedy run: nothing, or a character the class refuses. *)
Definition stops (p : N → bool) (s : pystr) : Prop :=
  match s with
  | [] => True
  | c :: _ => p c = false
  end.

(** The pattern in the words of the specification: optional leading
    whitespace, an identifier, whitespace, the keyword, whitespace, and the
    rest of the line. *)
Record matches_pattern (line indent symbol rest : pystr) : Prop := {
  mp_line : line = indent ++ symbol ++ rest;
  mp_indent : Forall (fun c => isspace c = true) indent;
  mp_symbol : ∃ c cs, symbol = c :: cs ∧ is_ident_start c = true
                      ∧ Forall (fun c => is_ident_char c = true) cs;
  mp_rest : ∃ ws1 ws2 value,
      rest = ws1 ++ EQU ++ ws2 ++ value
      ∧ ws1 ≠ [] ∧ Forall (fun c => isspace c = true) ws1
      ∧ ws2 ≠ [] ∧ Forall (fun c => isspace c = true) ws2
}.

(** The world after some more lines were printed. *)
Definition printed (lines : list string) (w : world) : world :=
  {| fs := fs w; stdout := stdout w ++ lines; spawned := spawned w |}.

(** The world after the files changed and some more lines were printed. *)
Definition updated (f : filesystem) (lines : list string) (w : world) : world :=
  {| fs := f; stdout := stdout w ++ lines; spawned := spawned w |}.

Definition backup_of (self : GameBoyVideoConverter) : Path :=
  with_suffix (video_asm self) ".asm.bak".

(** The files after the one-time backup of lines 45-48. *)
Definition backed_up (self : GameBoyVideoConverter) (f : filesystem)
    (data : pystr) : filesystem :=
  match f !! backup_of self with
  | Some _ => f
  | None => <[backup_of self := File data]> f
  end.

Definition backup_report (self : GameBoyVideoConverter) (f : filesystem)
    : list string :=
  match f !! backup_of self with
  | Some _ => []
  | None => ["   📋 Created backup: " +:+ path_name (backup_of self)]
  end.

(** ** Sample hosts and worlds *)

Definition quiet (code : Z) : CompletedProcess :=
  {| returncode := code; cp_stdout := ""; cp_stderr := "" |}.

(** A host with every program installed, where the video has no sound
    track (the audio extraction exits with status 1) and [make] leaves a
    ROM behind. *)
Definition sample_host : Host := {|
  abspath := fun name => if String.eqb name "." then ["work"] else ["work"; name];
  which := fun _ => true;
  importable := fun _ => true;
  subprocess_run := fun argv cwd f =>
    match argv with
    | "make" :: _ => (inr (quiet 0), <[["work"; "video.gb"] := File []]> f)
    | "ffmpeg" :: "-i" :: _ :: "-vn" :: _ => (inr (quiet 1), f)
    | _ => (inr (quiet 0), f)
    end;
  rmtree := fun p f => Some (delete p f);
  mkdir_parents := fun p f => Some (<[p := Dir]> f);
  count_bmp := fun _ _ => 0%Z;
  getsize := fun p f =>
    match f !! p with
    | Some (File data) => Some (Z.of_nat (length data))
    | _ => None
    end;
  str_float := fun _ => "1.0";
  format_1f := fun _ => "30.0";
  format_mb := fun _ => "0.00";
  str_exn := fun _ => "error"
|}.

Definition sample_converter : GameBoyVideoConverter :=
  new_converter sample_host ".".

(** A world whose only file is [src/video.asm] with the given text. *)
Definition world_with_asm (text : pystr) : world :=
  {| fs := {[ ["work"; "src"; "video.asm"] := File text ]};
     stdout := []; spawned := [] |}.

Definition mixed_asm : pystr := lit "DEF FOO EQU 1
BAR EQU 2".

Definition marked_asm : pystr := lit "DEF PULLDOWN_SKIPF EQU 1
BAR EQU 2".

(** A line in the qualified form of a constant declaration. *)
Definition qualified_declaration (line : pystr) : Prop :=
  ∃ indent symbol rest,
    matches_pattern (indent ++ symbol ++ rest) indent symbol rest
    ∧ line = indent ++ DEF_ ++ symbol ++ rest.

(** The reading of the file-wide test that takes any qualified declaration
    for the sign of a patched file. *)
Definition any_qualified_declaration_stops_patching : Prop :=
  ∀ (host : Host) (repo : string) (w : world) (data : pystr),
    let self := new_converter host repo in
    fs w !! video_asm self = Some (File data) →
    (∃ line, line ∈ split LF (universal_newlines data)
             ∧ qualified_declaration line) →
    fs (patch_rgbds_syntax self w).2 = fs w.

(** [sub in s] on messages. *)
Fixpoint str_contains (sub s : string) : bool :=
  String.prefix sub s ||
  match s with
  | EmptyString => false
  | String _ t => str_contains sub t
  end.

(** A report names an item when one of its printed entries holds the
    item's name. *)
Definition listed (item : string) (report : list string) : Prop :=
  ∃ entry, entry ∈ report ∧ str_contains item entry = true.

Definition fresh_world : world := {| fs := ∅; stdout := []; spawned := [] |}.

(** What [check_dependencies] prints. *)
Definition dependency_report (host : Host) : list string :=
  stdout (check_dependencies host fresh_world).2.

Definition all_programs_found (host : Host) : Prop :=
  ∀ cmd desc, (cmd, desc) ∈ deps → which host cmd = true.

(** The reading of the check as a probe that reports everything that is
    missing, programs and libraries alike. *)
Definition report_lists_everything_missing : Prop :=
  ∀ host : Host,
    (∀ cmd desc, (cmd, desc) ∈ deps → which host cmd = false →
                 listed cmd (dependency_report host))
    ∧ (importable host "PIL" = false → listed "Pillow" (dependency_report host))
    ∧ (importable host "soundfile" = false →
       listed "soundfile" (dependency_report host)).

(** A host without [ffmpeg] and without Pillow. *)
Definition bare_host : Host := {|
  abspath := abspath sample_host;
  which := fun cmd => negb (String.eqb cmd "ffmpeg");
  importable := fun name => negb (String.eqb name "PIL");
  subprocess_run := subprocess_run sample_host;
  rmtree := rmtree sample_host;
  mkdir_parents := mkdir_parents sample_host;
  count_bmp := count_bmp sample_host;
  getsize := getsize sample_host;
  str_float := str_float sample_host;
  format_1f := format_1f sample_host;
  format_mb := format_mb sample_host;
  str_exn := str_exn sample_host
|}.

(** The line of the report for one entry of [deps]. *)
Definition dep_line (dep : string * string) : string :=
  "  - " +:+ dep.2 +:+ " (" +:+ dep.1 +:+ ")".

(** What [main] prints before the patch step when the checks pass. *)
Definition banner (host : Host) (args : Args) (name : string)
    (target_fps : float) : list string :=
  [ str_repeat "=" 70;
    "🎮 MP4 to Game Boy ROM Converter";
    str_repeat "=" 70;
    "Input:       " +:+ input args;
    "Output:      " +:+ output args;
    "Resolution:  " +:+ name +:+ " (config " +:+ str_int (config args) +:+ ")";
    "Target FPS:  " +:+ format_1f host target_fps +:+ " fps (pulldown "
      +:+ str_float host (fps_multiplier args) +:+ ")";
    "Audio:       " +:+ (if no_audio args then "Disabled" else "Enabled");
    str_repeat "=" 70;
    nl +:+ "[0/5] 🔍 Checking dependencies...";
    "   ✅ All dependencies found" ].

(** What [main] prints between a failed audio extraction and the build. *)
Definition without_audio_lines : list string :=
  [ "⚠️  Continuing without audio...";
    nl +:+ "[3/5] 🔄 Converting frames to Game Boy format...";
    "   (This may take a while...)";
    nl +:+ "[4/5] 🎼 Converting audio to Game Boy format...";
    "   (Processing audio data...)" ].

(** What [main] prints after a successful build. *)
Definition success_lines (args : Args) : list string :=
  [ nl +:+ str_repeat "=" 70;
    "✅ SUCCESS! Game Boy ROM created!";
    str_repeat "=" 70;
    nl +:+ "📁 Output: " +:+ output args;
    nl +:+ "🎮 Next steps:";
    "  1. Test in an emulator (BGB, SameBoy, mGBA)";
    "  2. Load onto a flashcart for real hardware";
    nl +:+ "💡 Tips:";
    "  - If ROM is too large, try --fps-multiplier 0.5 for 15fps";
    "  - If ROM is too large, try --config 1 or --config 2";
    "  - Use --no-audio to reduce ROM size significantly";
    "" ].

Definition sample_args : Args := {|
  input := "in.mp4"; output := "out.gb"; repo := ".";
  config := 0; fps_multiplier := 1%float;
  no_audio := false; skip_patch := false
|}.

(** A checkout with a [Makefile] and a video, and nothing else. *)
Definition sample_world : world := {|
  fs := <[ ["work"; "in.mp4"] := File [] ]>
          (<[ ["work"; "Makefile"] := File [] ]> ∅);
  stdout := []; spawned := []
|}.

Definition sample_wav : Path := ["work"; "sound.wav"].

Definition sample_after_patch : world :=
  (patch_step sample_args sample_converter
     (printed (banner sample_host sample_args "160x72" 30%float)
              sample_world)).2.

Definition sample_after_frames : world :=
  (extract_frames sample_host sample_converter "in.mp4" 0 1%float
     sample_after_patch).2.

Definition sample_after_audio : world :=
  (extract_audio sample_host sample_converter "in.mp4" sample_wav
     sample_after_frames).2.

Definition sample_after_build : world :=
  (build_rom sample_host sample_converter "out.gb" 0 1%float None
     (printed without_audio_lines sample_after_audio)).2.

(** A host like [sample_host] where the video has a sound track: the audio
    extraction exits with status 0 and leaves [sound.wav] behind. *)
Definition sound_host : Host := {|
  abspath := abspath sample_host;
  which := which sample_host;
  importable := importable sample_host;
  subprocess_run := fun argv cwd f =>
    match argv with
    | "ffmpeg" :: "-i" :: _ :: "-vn" :: _ =>
        (inr (quiet 0), <[["work"; "sound.wav"] := File []]> f)
    | _ => subprocess_run sample_host argv cwd f
    end;
  rmtree := rmtree sample_host;
  mkdir_parents := mkdir_parents sample_host;
  count_bmp := count_bmp sample_host;
  getsize := getsize sample_host;
  str_float := str_float sample_host;
  format_1f := format_1f sample_host;
  format_mb := format_mb sample_host;
  str_exn := str_exn sample_host
|}.

(** A source file with DOS line ends. *)
Definition crlf_asm : pystr := [65; 32; 69; 81; 85; 32; 49; 13; 10; 59].

(** ** Runs of the stages *)

(** An outcome that is a returned value or an exception. *)
Definition returns_or_raises {A} (r : outcome A) : Prop :=
  (∃ a, r = Return a) ∨ (∃ e, r = Raise e).

(** The three commands [main] can start. *)
Definition frames_spawn (host : Host) (args : Args) (fps : float) : event :=
  Spawn (frames_cmd host (input args)
           (frames_dir (new_converter host (repo args)))
           (resolution (config args)).1 (resolution (config args)).2 fps)
        None.

Definition audio_spawn (host : Host) (args : Args) : event :=
  Spawn (audio_cmd (input args)
           (joinpath (repo_path (new_converter host (repo args)))
                     "sound.wav"))
        None.

Definition make_spawn (host : Host) (args : Args) (sound : option Path)
    (f : filesystem) : event :=
  Spawn (make_cmd host (config args) (fps_multiplier args) sound f)
        (Some (repo_path (new_converter host (repo args)))).

(** The commands of a run, in the order they were started: the frame
    extraction, then the audio extraction unless audio is disabled, then
    [make]; a run may stop after any of them. *)
Definition pipeline_spawns (host : Host) (args : Args) (new : list event)
    : Prop :=
  new = []
  ∨ ∃ fps,
      derived_fps (fps_multiplier args) = inr fps
      ∧ (new = [frames_spawn host args fps]
         ∨ (no_audio args = false
            ∧ new = [frames_spawn host args fps; audio_spawn host args])
         ∨ ∃ sound f,
             (no_audio args = true ∧ sound = None
              ∧ new = [frames_spawn host args fps;
                       make_spawn host args sound f])
             ∨ (no_audio args = false
                ∧ new = [frames_spawn host args fps; audio_spawn host args;
                         make_spawn host args sound f])).

(** * Properties *)

(** ** The rule on examples *)

Example fix_line_myconst :
  fix_line (lit "  MYCONST EQU 5") = lit "  DEF MYCONST EQU 5".
Proof. reflexivity. Qed.

Example fix_line_comment :
  fix_line (lit "  ; X EQU 5") = lit "  ; X EQU 5".
Proof. reflexivity. Qed.

Example patched_text_ex :
  patched_text (lit "A EQU 1
; c
B  EQU  $10 ; x") = lit "DEF A EQU 1
; c
DEF B  EQU  $10 ; x".
Proof. vm_compute. reflexivity. Qed.

(** ** Lists of characters *)

Section TextLemmas.

Implicit Types (s t line : pystr) (ls : list pystr) (c sep : N).

Lemma split_nonempty sep s : split sep s ≠ [].
Proof.
  destruct s as [|c t]; simpl; [discriminate|].
  destruct (c =? sep); [discriminate|].
  destruct (split sep t); discriminate.
Qed.

Lemma split_lines_free sep s : Forall (fun l => sep ∉ l) (split sep s).
Proof.
  induction s as [|c t IH]; simpl.
  - constructor; [apply not_elem_of_nil | constructor].
  - destruct (N.eqb_spec c sep) as [->|Hne].
    + constructor; [apply not_elem_of_nil | exact IH].
    + destruct (split sep t) as [|l rest]; inversion IH; subst.
      * constructor; [|constructor].
        intros Hin. apply list_elem_of_singleton in Hin. congruence.
      * constructor; [|assumption].
        rewrite elem_of_cons. intros [Heq|Hin]; [congruence | contradiction].
Qed.

Lemma split_chars sep s l c : l ∈ split sep s → c ∈ l → c ∈ s.
Proof.
  revert l. induction s as [|a t IH]; simpl; intros l Hl Hc.
  - apply list_elem_of_singleton in Hl. subst. exact Hc.
  - destruct (a =? sep).
    + apply elem_of_cons in Hl as [->|Hl]; [inversion Hc|]. right. eauto.
    + pose proof (split_nonempty sep t) as Hne.
      destruct (split sep t) as [|l0 rest] eqn:E; [congruence|].
      apply elem_of_cons in Hl as [->|Hl].
      * apply elem_of_cons in Hc as [->|Hc]; [left|right].
        apply (IH l0); [left | exact Hc].
      * right. apply (IH l); [right; exact Hl | exact Hc].
Qed.

Lemma join_cons sep_s l l' ls :
  join sep_s (l :: l' :: ls) = l ++ sep_s ++ join sep_s (l' :: ls).
Proof. reflexivity. Qed.

Lemma join_chars sep_s ls c :
  c ∈ join sep_s ls → c ∈ sep_s ∨ ∃ l, l ∈ ls ∧ c ∈ l.
Proof.
  induction ls as [|l [|l' ls'] IH].
  - simpl. intros H. inversion H.
  - simpl. intros H. right. exists l. split; [left | exact H].
  - rewrite join_cons, !elem_of_app. intros [H|[H|H]].
    + right. exists l. split; [left | exact H].
    + left. exact H.
    + destruct (IH H) as [?|(l0 & Hl0 & Hc)]; [left; assumption|].
      right. exists l0. split; [right; exact Hl0 | exact Hc].
Qed.

Lemma split_app_line sep l s :
  sep ∉ l → split sep (l ++ sep :: s) = l :: split sep s.
Proof.
  induction l as [|c l IH]; simpl; intros Hfree.
  - rewrite N.eqb_refl. reflexivity.
  - apply not_elem_of_cons in Hfree as [Hne Hfree].
    destruct (N.eqb_spec c sep) as [?|_]; [congruence|].
    rewrite (IH Hfree). reflexivity.
Qed.

Lemma split_free sep l : sep ∉ l → split sep l = [l].
Proof.
  induction l as [|c l IH]; simpl; intros Hfree; [reflexivity|].
  apply not_elem_of_cons in Hfree as [Hne Hfree].
  destruct (N.eqb_spec c sep) as [?|_]; [congruence|].
  rewrite (IH Hfree). reflexivity.
Qed.

(** Splitting what was joined gives the lines back. *)
Lemma split_join sep ls :
  ls ≠ [] → Forall (fun l => sep ∉ l) ls → split sep (join [sep] ls) = ls.
Proof.
  induction ls as [|l [|l' ls'] IH]; intros Hne Hfree.
  - congruence.
  - simpl. apply split_free. inversion Hfree; assumption.
  - rewrite join_cons. inversion Hfree as [|? ? Hl Hrest]; subst.
    change ([sep] ++ join [sep] (l' :: ls'))
      with (sep :: join [sep] (l' :: ls')).
    rewrite split_app_line by exact Hl.
    rewrite IH; [reflexivity | discriminate | exact Hrest].
Qed.

(** Joining what was split gives the text back. *)
Lemma join_split sep s : join [sep] (split sep s) = s.
Proof.
  induction s as [|c t IH]; simpl; [reflexivity|].
  pose proof (split_nonempty sep t) as Hne.
  destruct (c =? sep) eqn:E.
  - apply N.eqb_eq in E. subst c.
    destruct (split sep t) as [|l ls]; [congruence|].
    rewrite join_cons, IH. reflexivity.
  - destruct (split sep t) as [|l [|l' ls]] eqn:Es; [congruence| |].
    + simpl in *. congruence.
    + rewrite join_cons in *. simpl. rewrite <- IH. reflexivity.
Qed.

Lemma startswith_app p s : startswith p (p ++ s) = true.
Proof.
  induction p as [|a p IH]; simpl; [reflexivity|].
  rewrite N.eqb_refl. exact IH.
Qed.

Lemma contains_unfold sub s :
  contains sub s =
  startswith sub s || match s with [] => false | _ :: t => contains sub t end.
Proof. destruct s; reflexivity. Qed.

Lemma contains_app sub a b : contains sub (a ++ sub ++ b) = true.
Proof.
  induction a as [|c a IH].
  - simpl. rewrite contains_unfold, startswith_app. reflexivity.
  - rewrite <- app_comm_cons, contains_unfold, IH. apply orb_true_r.
Qed.

End TextLemmas.

(** ** Character classes and greedy runs *)

Ltac class_to_prop H :=
  rewrite ?orb_true_iff, ?andb_true_iff, ?N.leb_le, ?N.eqb_eq in H.

Ltac class_false :=
  apply not_true_iff_false;
  rewrite ?orb_true_iff, ?andb_true_iff, ?N.leb_le, ?N.eqb_eq; lia.

Lemma ident_char_not_space c : is_ident_char c = true → isspace c = false.
Proof.
  unfold is_ident_char, is_ident_start, isspace. intros H.
  class_to_prop H. class_false.
Qed.

Lemma ident_start_is_char c : is_ident_start c = true → is_ident_char c = true.
Proof. unfold is_ident_char. intros ->. reflexivity. Qed.

Lemma space_not_ident_char c : isspace c = true → is_ident_char c = false.
Proof.
  intros Hs. destruct (is_ident_char c) eqn:E; [|reflexivity].
  apply ident_char_not_space in E. congruence.
Qed.

Lemma span_eq p s a b :
  span p s = (a, b) →
  s = a ++ b ∧ Forall (fun c => p c = true) a ∧ stops p b.
Proof.
  revert a b. induction s as [|c t IH]; simpl; intros a b H.
  - inversion H; subst. repeat split; constructor.
  - destruct (p c) eqn:Hc.
    + destruct (span p t) as [a' b'] eqn:E. inversion H; subst.
      destruct (IH a' b eq_refl) as (-> & Hall & Hstop).
      repeat split; [constructor; assumption | assumption].
    + inversion H; subst. repeat split; [constructor | exact Hc].
Qed.

Lemma span_app p a b :
  Forall (fun c => p c = true) a → stops p b → span p (a ++ b) = (a, b).
Proof.
  intros Hall Hstop. induction Hall as [|c a Hc _ IH]; simpl.
  - destruct b as [|c b]; [reflexivity|]. simpl in *.
    rewrite Hstop. reflexivity.
  - rewrite Hc, IH. reflexivity.
Qed.

Lemma span_app_run p a b :
  Forall (fun c => p c = true) a →
  span p (a ++ b) = (a ++ (span p b).1, (span p b).2).
Proof.
  intros Hall. induction Hall as [|c a Hc _ IH]; simpl.
  - destruct (span p b); reflexivity.
  - rewrite Hc, IH. reflexivity.
Qed.

Lemma span_all p s : Forall (fun c => p c = true) s → span p s = (s, []).
Proof.
  intros H. rewrite <- (app_nil_r s) at 1. apply span_app; [exact H | exact I].
Qed.

Lemma startswith_eq p s : startswith p s = true → s = p ++ drop (length p) s.
Proof.
  revert s. induction p as [|a p IH]; intros [|b s]; simpl; intros H;
    try reflexivity; try discriminate.
  apply andb_true_iff in H as [Hab Hrest]. apply N.eqb_eq in Hab. subst b.
  f_equal. apply IH. exact Hrest.
Qed.

Lemma is_dot_free s : LF ∉ s → Forall (fun c => is_dot c = true) s.
Proof.
  intros Hfree. apply Forall_forall. intros c Hc. unfold is_dot.
  destruct (N.eqb_spec c LF) as [->|]; [contradiction | reflexivity].
Qed.

(** ** The pattern: what the matcher returns *)

(** The groups of a match cover the line, up to a line feed that ends it. *)
Lemma re_match_equ_parts line indent symbol rest :
  re_match_equ line = Some (indent, symbol, rest) →
  ∃ tail, (tail = [] ∨ tail = [LF])
          ∧ matches_pattern (indent ++ symbol ++ rest) indent symbol rest
          ∧ line = indent ++ symbol ++ rest ++ tail.
Proof.
  unfold re_match_equ. intros H.
  destruct (span isspace line) as [ind r1] eqn:E1.
  destruct r1 as [|c r1']; [discriminate|].
  destruct (is_ident_start c) eqn:Hc; [|discriminate].
  destruct (span is_ident_char r1') as [cs r2] eqn:E2.
  destruct (span isspace r2) as [ws1 r3] eqn:E3.
  destruct ws1 as [|w1 ws1']; [discriminate|].
  destruct (startswith EQU r3) eqn:Hequ; [|discriminate].
  destruct (span isspace (drop (length EQU) r3)) as [ws2 r5] eqn:E4.
  destruct ws2 as [|w2 ws2']; [discriminate|].
  destruct (span is_dot r5) as [v r6] eqn:E5.
  apply span_eq in E1 as (-> & Hind & _).
  apply span_eq in E2 as (-> & Hcs & _).
  apply span_eq in E3 as (-> & Hws1 & _).
  apply startswith_eq in Hequ.
  apply span_eq in E4 as (Hdrop & Hws2 & _).
  apply span_eq in E5 as (-> & _ & Hstop).
  assert (Htail : (r6 = [] ∨ r6 = [LF])
                  ∧ Some (ind, c :: cs, (w1 :: ws1') ++ EQU ++ (w2 :: ws2') ++ v)
                    = Some (indent, symbol, rest)).
  { destruct r6 as [|d [|d' r6']]; try discriminate.
    - split; [left; reflexivity | exact H].
    - split; [right | exact H].
      simpl in Hstop. unfold is_dot in Hstop.
      apply negb_false_iff, N.eqb_eq in Hstop. subst d. reflexivity. }
  destruct Htail as [Htail Hres]. inversion Hres; subst indent symbol rest.
  exists r6. split; [exact Htail|]. split.
  - constructor; [reflexivity | exact Hind | |].
    + exists c, cs. auto.
    + exists (w1 :: ws1'), (w2 :: ws2'), v. repeat split; auto; discriminate.
  - rewrite Hequ, Hdrop. unfold EQU.
    repeat (simpl; rewrite <- ?app_assoc). reflexivity.
Qed.

(** On a line without a line feed, the matcher succeeds exactly on the
    lines of the pattern, and returns the pattern's three parts. *)
Lemma re_match_equ_complete line indent symbol rest :
  LF ∉ line →
  matches_pattern line indent symbol rest →
  re_match_equ line = Some (indent, symbol, rest).
Proof.
  intros Hfree [-> Hind (c & cs & -> & Hc & Hcs) Hrest].
  destruct Hrest as (ws1 & ws2 & value & -> & Hne1 & Hws1 & Hne2 & Hws2).
  unfold re_match_equ.
  rewrite (span_app isspace indent); [|exact Hind|].
  2:{ simpl. apply ident_char_not_space, ident_start_is_char, Hc. }
  simpl. rewrite Hc.
  rewrite (span_app is_ident_char cs); [|exact Hcs|].
  2:{ destruct ws1 as [|w ws1]; [congruence|]. simpl.
      inversion Hws1; subst. apply space_not_ident_char. assumption. }
  rewrite (span_app isspace ws1); [|exact Hws1 | reflexivity].
  destruct ws1 as [|w1 ws1']; [congruence|].
  simpl.
  change (drop 0 (ws2 ++ value)) with (ws2 ++ value).
  rewrite (span_app_run isspace ws2) by exact Hws2.
  destruct (span isspace value) as [w' v'] eqn:Ev. simpl.
  destruct ws2 as [|w2 ws2']; [congruence|]. simpl.
  apply span_eq in Ev as (-> & _ & _).
  assert (Hv : LF ∉ v') by set_solver.
  rewrite (span_all is_dot v') by (apply is_dot_free; exact Hv).
  repeat (simpl; rewrite <- ?app_assoc). reflexivity.
Qed.

Lemma re_match_equ_sound line indent symbol rest :
  LF ∉ line →
  re_match_equ line = Some (indent, symbol, rest) →
  matches_pattern line indent symbol rest.
Proof.
  intros Hfree H.
  destruct (re_match_equ_parts _ _ _ _ H) as (tail & [-> | ->] & Hm & Hline).
  - rewrite app_nil_r in Hline. rewrite Hline. exact Hm.
  - exfalso. apply Hfree. rewrite Hline, !elem_of_app.
    right. right. right. left.
Qed.

(** ** The rewriting of one line and of a whole text *)

Lemma skipped_qualified line : contains DEF_ line = true → skipped line = true.
Proof.
  intros H. unfold skipped. rewrite H.
  destruct (startswith SEMICOLON (strip line)); reflexivity.
Qed.

(** A line is either left as it is or gets the qualifier after its
    indentation. *)
Lemma fix_line_cases line :
  fix_line line = line
  ∨ ∃ indent symbol rest tail,
      (tail = [] ∨ tail = [LF])
      ∧ line = indent ++ symbol ++ rest ++ tail
      ∧ fix_line line = indent ++ DEF_ ++ symbol ++ rest.
Proof.
  unfold fix_line. destruct (skipped line); [left; reflexivity|].
  destruct (re_match_equ line) as [[[indent symbol] rest]|] eqn:E;
    [|left; reflexivity].
  right. destruct (re_match_equ_parts _ _ _ _ E) as (tail & Htail & _ & Hline).
  exists indent, symbol, rest, tail. auto.
Qed.

Lemma fix_line_idem line : fix_line (fix_line line) = fix_line line.
Proof.
  destruct (fix_line_cases line) as [H|(indent & symbol & rest & _ & _ & _ & H)].
  - rewrite H. exact H.
  - rewrite H. unfold fix_line at 1.
    rewrite skipped_qualified; [reflexivity|]. apply contains_app.
Qed.

Lemma fix_line_chars line c : c ∈ fix_line line → c ∈ line ∨ c ∈ DEF_.
Proof.
  destruct (fix_line_cases line)
    as [->|(indent & symbol & rest & tail & _ & Hline & ->)]; [auto|].
  rewrite Hline, !elem_of_app. tauto.
Qed.

Lemma DEF_chars c : c ∈ DEF_ → c ≠ LF ∧ c ≠ CR.
Proof.
  unfold DEF_, LF, CR. rewrite !elem_of_cons, elem_of_nil.
  intros [->|[->|[->|[->|[]]]]]; split; discriminate.
Qed.

Lemma patched_text_chars content c :
  c ∈ patched_text content → c ∈ content ∨ c ∈ DEF_ ∨ c = LF.
Proof.
  unfold patched_text. intros H.
  apply join_chars in H as [H|(l & Hl & Hc)].
  - apply list_elem_of_singleton in H. auto.
  - apply list_elem_of_In, in_map_iff in Hl as (l0 & <- & Hl0).
    apply list_elem_of_In in Hl0.
    apply fix_line_chars in Hc as [Hc|Hc]; [|auto].
    left. eapply split_chars; eassumption.
Qed.

(** The lines of the rewritten text are the rewritten lines. *)
Lemma patched_text_lines content :
  split LF (patched_text content) = List.map fix_line (split LF content).
Proof.
  unfold patched_text. apply split_join.
  - pose proof (split_nonempty LF content).
    destruct (split LF content); [congruence | discriminate].
  - apply Forall_forall. intros l Hl.
    apply list_elem_of_In, in_map_iff in Hl as (l0 & <- & Hl0).
    apply list_elem_of_In in Hl0.
    intros Hin. apply fix_line_chars in Hin as [Hin|Hin].
    + pose proof (split_lines_free LF content) as Hfree.
      rewrite Forall_forall in Hfree. exact (Hfree l0 Hl0 Hin).
    + apply DEF_chars in Hin as [Hne _]. congruence.
Qed.

Lemma patched_text_idem content :
  patched_text (patched_text content) = patched_text content.
Proof.
  unfold patched_text at 1. rewrite patched_text_lines.
  rewrite List.map_map.
  unfold patched_text. f_equal. apply List.map_ext. apply fix_line_idem.
Qed.

(** ** Universal newlines *)

Lemma universal_newlines_id s : CR ∉ s → universal_newlines s = s.
Proof.
  induction s as [|c t IH]; simpl; intros Hfree; [reflexivity|].
  apply not_elem_of_cons in Hfree as [Hne Hfree].
  destruct (N.eqb_spec c CR) as [?|_]; [congruence|].
  rewrite (IH Hfree). reflexivity.
Qed.

Lemma universal_newlines_free_bounded n :
  ∀ s, (length s ≤ n)%nat → CR ∉ universal_newlines s.
Proof.
  induction n as [|n IH]; intros [|c t] Hlen; simpl in *;
    try apply not_elem_of_nil; try lia.
  assert (Ht : CR ∉ universal_newlines t) by (apply IH; lia).
  assert (HLF : CR ≠ LF) by discriminate.
  destruct (N.eqb_spec c CR) as [->|Hne].
  - destruct t as [|d t'].
    + intros H. apply list_elem_of_singleton in H. congruence.
    + destruct (d =? LF).
      * apply not_elem_of_cons. split; [exact HLF|].
        apply IH. simpl in Hlen. lia.
      * apply not_elem_of_cons. split; [exact HLF | exact Ht].
  - apply not_elem_of_cons. split; [congruence | exact Ht].
Qed.

Lemma universal_newlines_free s : CR ∉ universal_newlines s.
Proof. apply (universal_newlines_free_bounded (length s)). lia. Qed.

Lemma patched_text_reread content :
  CR ∉ content → universal_newlines (patched_text content) = patched_text content.
Proof.
  intros Hfree. apply universal_newlines_id. intros Hin.
  apply patched_text_chars in Hin as [Hin|[Hin|Hin]].
  - contradiction.
  - apply DEF_chars in Hin as [_ Hne]. congruence.
  - discriminate.
Qed.

(** ** Running the patcher *)

Ltac run_M :=
  repeat (cbv [mbind M_bind mret M_ret print get_fs set_fs path_exists
               read_text write_text shutil_copy raise sys_exit lift_fs_op
               lift_exn printed updated];
          cbn [fs stdout spawned fst snd negb]).

Lemma with_suffix_joinpath p name suffix :
  with_suffix (joinpath p name) suffix = joinpath p (stem name +:+ suffix).
Proof.
  unfold with_suffix, joinpath. rewrite rev_app_distr. simpl.
  rewrite rev_involutive. reflexivity.
Qed.

Lemma backup_of_new host repo :
  backup_of (new_converter host repo)
  = joinpath (joinpath (abspath host repo) "src") "video.asm.bak".
Proof. unfold backup_of. simpl. rewrite with_suffix_joinpath. reflexivity. Qed.

Lemma backup_is_another_file host repo :
  backup_of (new_converter host repo) ≠ video_asm (new_converter host repo).
Proof.
  rewrite backup_of_new. simpl. unfold joinpath. intros H.
  apply app_inv_head in H. discriminate.
Qed.

Section PatcherRuns.

Context (self : GameBoyVideoConverter).

Lemma patch_missing w :
  fs w !! video_asm self = None →
  patch_rgbds_syntax self w
  = (Return true,
     printed ["⚠️  Warning: " +:+ path_str (video_asm self)
              +:+ " not found, skipping patch"] w).
Proof.
  intros H. unfold patch_rgbds_syntax. run_M. rewrite H.
  rewrite bool_decide_false by (intros [? ?]; discriminate).
  reflexivity.
Qed.

Lemma patch_directory w :
  fs w !! video_asm self = Some Dir →
  patch_rgbds_syntax self w
  = (Raise OSError, printed ["🔧 Checking RGBDS syntax compatibility..."] w).
Proof.
  intros H. unfold patch_rgbds_syntax. run_M. rewrite H.
  rewrite bool_decide_true by eauto. run_M. rewrite H. reflexivity.
Qed.

Lemma patch_already w data :
  fs w !! video_asm self = Some (File data) →
  already_patched (universal_newlines data) = true →
  patch_rgbds_syntax self w
  = (Return true,
     printed ["🔧 Checking RGBDS syntax compatibility...";
              "   ✅ Already patched"] w).
Proof.
  intros H Hp. unfold patch_rgbds_syntax. run_M. rewrite H.
  rewrite bool_decide_true by eauto. run_M. rewrite H, Hp. run_M.
  rewrite <- app_assoc. reflexivity.
Qed.

Lemma patch_now w data :
  backup_of self ≠ video_asm self →
  fs w !! video_asm self = Some (File data) →
  already_patched (universal_newlines data) = false →
  patch_rgbds_syntax self w
  = (Return true,
     updated
       (<[video_asm self := File (patched_text (universal_newlines data))]>
          (backed_up self (fs w) data))
       (["🔧 Checking RGBDS syntax compatibility...";
         "   🔧 Patching for newer RGBDS..."]
        ++ backup_report self (fs w)
        ++ ["   ✅ Syntax patched successfully"]) w).
Proof.
  intros Hne H Hp. unfold patch_rgbds_syntax. run_M. rewrite H.
  rewrite bool_decide_true by eauto. run_M. rewrite H, Hp. run_M.
  unfold backed_up, backup_report. fold (backup_of self).
  destruct (fs w !! backup_of self) as [n|] eqn:Hb.
  - rewrite bool_decide_true by eauto. run_M. rewrite H. run_M.
    rewrite <- !app_assoc. reflexivity.
  - rewrite bool_decide_false by (intros [? ?]; discriminate). run_M.
    repeat (run_M; rewrite ?H, ?Hb, ?(bool_decide_false _ Hne),
                           ?(lookup_insert_ne _ _ _ _ Hne)).
    rewrite <- !app_assoc. reflexivity.
Qed.

End PatcherRuns.

(** ** The patcher: properties of a run *)

Lemma backed_up_has_backup self f data :
  is_Some (backed_up self f data !! backup_of self).
Proof.
  unfold backed_up. destruct (f !! backup_of self) eqn:E.
  - rewrite E. eauto.
  - rewrite lookup_insert_eq. eauto.
Qed.

(** C1. Applying the patcher a second time leaves every file, and so the
    text of [video.asm], as the first application left it. *)
Theorem patch_rgbds_syntax_idempotent (host : Host) (repo : string) (w : world) :
  let self := new_converter host repo in
  let once := (patch_rgbds_syntax self w).2 in
  let twice := (patch_rgbds_syntax self once).2 in
  fs twice = fs once.
Proof.
  cbv zeta. pose proof (backup_is_another_file host repo) as Hne.
  revert Hne. generalize (new_converter host repo). intros self Hne.
  destruct (fs w !! video_asm self) as [[data|]|] eqn:Hw.
  - destruct (already_patched (universal_newlines data)) eqn:Hp.
    + rewrite (patch_already self w data Hw Hp). simpl.
      rewrite (patch_already self (printed _ w) data Hw Hp). reflexivity.
    + rewrite (patch_now self w data Hne Hw Hp). simpl.
      set (c := universal_newlines data).
      set (f1 := <[video_asm self := File (patched_text c)]>
                   (backed_up self (fs w) data)).
      set (w1 := updated f1 _ w).
      assert (H1 : fs w1 !! video_asm self = Some (File (patched_text c)))
        by apply lookup_insert_eq.
      assert (Hre : universal_newlines (patched_text c) = patched_text c)
        by apply patched_text_reread, universal_newlines_free.
      destruct (already_patched (patched_text c)) eqn:Hp1.
      * rewrite (patch_already self w1 _ H1) by (rewrite Hre; exact Hp1).
        reflexivity.
      * rewrite (patch_now self w1 _ Hne H1) by (rewrite Hre; exact Hp1).
        simpl. rewrite Hre, patched_text_idem.
        assert (Hb : is_Some (f1 !! backup_of self)).
        { unfold f1. rewrite lookup_insert_ne by congruence.
          apply backed_up_has_backup. }
        unfold backed_up at 1. destruct Hb as [n Hb]. rewrite Hb.
        unfold f1. apply insert_insert_eq.
  - rewrite (patch_directory self w Hw). simpl.
    rewrite (patch_directory self (printed _ w) Hw). reflexivity.
  - rewrite (patch_missing self w Hw). simpl.
    rewrite (patch_missing self (printed _ w) Hw). reflexivity.
Qed.

(** C2. In a file that the file-wide test does not take for patched, a
    line that is neither a comment nor blank, holds neither the qualifier
    nor a directive keyword, and has the shape of the pattern gets ["DEF "]
    right before its identifier, the indentation and the remainder staying
    as they were: the loop body yields that line, and the patcher returns
    [True] having written to [video.asm], on the same number of lines, a
    text that holds it at the position of the line read. *)
Theorem patch_rgbds_syntax_inserts_qualifier
    (host : Host) (repo : string) (w : world) (data : pystr)
    (i : nat) (line indent symbol rest : pystr) :
  let self := new_converter host repo in
  fs w !! video_asm self = Some (File data) →
  contains PATCHED_MARK (universal_newlines data) = false →
  split LF (universal_newlines data) !! i = Some line →
  startswith SEMICOLON (strip line) = false →
  strip line ≠ [] →
  contains DEF_ line = false →
  contains INCLUDE line = false →
  contains SECTION line = false →
  contains EXPORT line = false →
  matches_pattern line indent symbol rest →
  line = indent ++ symbol ++ rest
  ∧ fix_line line = indent ++ DEF_ ++ symbol ++ rest
  ∧ ∃ text,
      (patch_rgbds_syntax self w).1 = Return true
      ∧ fs (patch_rgbds_syntax self w).2 !! video_asm self
        = Some (File text)
      ∧ length (split LF text) = length (split LF (universal_newlines data))
      ∧ split LF text !! i = Some (indent ++ DEF_ ++ symbol ++ rest).
Proof.
  intros self Hw Hmark Hi Hsemi Hblank Hdef Hinc Hsec Hexp Hm.
  assert (Hfree : LF ∉ line).
  { pose proof (split_lines_free LF (universal_newlines data)) as Hall.
    rewrite Forall_forall in Hall. apply Hall.
    apply list_elem_of_lookup. eauto. }
  assert (Hfix : fix_line line = indent ++ DEF_ ++ symbol ++ rest).
  { unfold fix_line, skipped.
    rewrite Hsemi, Hdef, Hinc, Hsec, Hexp.
    destruct (strip line); [congruence|]. simpl.
    rewrite (re_match_equ_complete _ _ _ _ Hfree Hm). reflexivity. }
  split; [apply Hm|]. split; [exact Hfix|].
  exists (patched_text (universal_newlines data)).
  rewrite (patch_now self w data (backup_is_another_file host repo)
             Hw Hmark).
  split; [reflexivity|]. split; [apply lookup_insert_eq|].
  rewrite patched_text_lines. split; [apply length_map|].
  rewrite list_lookup_fmap, Hi. simpl. rewrite Hfix. reflexivity.
Qed.

(** C3. A comment line, a blank line, a line holding a directive keyword
    and a line that already holds the qualifier pass through unchanged, also
    in the text written back. *)
Theorem fix_line_passes_through (line : pystr) :
  startswith SEMICOLON (strip line) = true
  ∨ contains INCLUDE line = true
  ∨ contains SECTION line = true
  ∨ contains EXPORT line = true
  ∨ contains DEF_ line = true
  ∨ strip line = [] →
  fix_line line = line
  ∧ ∀ content i,
      split LF content !! i = Some line →
      split LF (patched_text content) !! i = Some line.
Proof.
  intros H.
  assert (Hskip : skipped line = true).
  { unfold skipped.
    destruct H as [H|[H|[H|[H|[H|H]]]]]; rewrite H;
      rewrite ?orb_true_r; reflexivity. }
  assert (Hfix : fix_line line = line) by (unfold fix_line; rewrite Hskip; reflexivity).
  split; [exact Hfix|]. intros content i Hi.
  rewrite patched_text_lines, list_lookup_fmap, Hi. simpl.
  rewrite Hfix. reflexivity.
Qed.

(** ** The file-wide test for an already patched file *)

Lemma FOO_is_qualified : qualified_declaration (lit "DEF FOO EQU 1").
Proof.
  exists [], (lit "FOO"), (lit " EQU 1"). split; [|reflexivity].
  constructor.
  - reflexivity.
  - constructor.
  - exists 70, (lit "OO"). repeat split. repeat constructor.
  - exists (lit " "), (lit " "), (lit "1").
    repeat split; try discriminate; repeat constructor.
Qed.

Lemma sample_patch_mixed :
  patch_rgbds_syntax sample_converter (world_with_asm mixed_asm)
  = (Return true,
     updated
       (<[ ["work"; "src"; "video.asm"] := File (lit "DEF FOO EQU 1
DEF BAR EQU 2") ]>
          (<[ ["work"; "src"; "video.asm.bak"] := File mixed_asm ]>
             (fs (world_with_asm mixed_asm))))
       ["🔧 Checking RGBDS syntax compatibility...";
        "   🔧 Patching for newer RGBDS...";
        "   📋 Created backup: video.asm.bak";
        "   ✅ Syntax patched successfully"]
       (world_with_asm mixed_asm)).
Proof.
  rewrite (patch_now sample_converter _ mixed_asm).
  - reflexivity.
  - apply backup_is_another_file.
  - reflexivity.
  - reflexivity.
Qed.

Lemma mixed_asm_has_qualified_line :
  ∃ line, line ∈ split LF (universal_newlines mixed_asm)
          ∧ qualified_declaration line.
Proof.
  exists (lit "DEF FOO EQU 1"). split; [|exact FOO_is_qualified].
  change (split LF (universal_newlines mixed_asm))
    with [lit "DEF FOO EQU 1"; lit "BAR EQU 2"]. left.
Qed.

(** C4, as stated, fails: a file whose only qualified declaration is not
    the one of [PULLDOWN_SKIPF] is backed up and rewritten. *)
Lemma other_qualified_declaration_is_patched :
  let w := world_with_asm mixed_asm in
  let w' := (patch_rgbds_syntax sample_converter w).2 in
  fs w !! video_asm sample_converter = Some (File mixed_asm)
  ∧ (∃ line, line ∈ split LF (universal_newlines mixed_asm)
             ∧ qualified_declaration line)
  ∧ fs w' ≠ fs w
  ∧ fs w' !! video_asm sample_converter = Some (File (lit "DEF FOO EQU 1
DEF BAR EQU 2"))
  ∧ fs w !! backup_of sample_converter = None
  ∧ fs w' !! backup_of sample_converter = Some (File mixed_asm).
Proof.
  cbv zeta. rewrite sample_patch_mixed.
  split; [reflexivity|]. split; [exact mixed_asm_has_qualified_line|].
  split; [|repeat split; reflexivity].
  intros H.
  assert (Hb : fs (world_with_asm mixed_asm)
               !! ["work"; "src"; "video.asm.bak"] = None) by reflexivity.
  rewrite <- H in Hb. discriminate.
Qed.

Lemma not_any_qualified_declaration_stops_patching :
  ¬ any_qualified_declaration_stops_patching.
Proof.
  intros H.
  specialize (H sample_host "." (world_with_asm mixed_asm) mixed_asm
                eq_refl mixed_asm_has_qualified_line).
  fold sample_converter in H. rewrite sample_patch_mixed in H.
  assert (Hb : fs (world_with_asm mixed_asm)
               !! ["work"; "src"; "video.asm.bak"] = None) by reflexivity.
  rewrite <- H in Hb. discriminate.
Qed.

(** C4, amended. A file that holds the text ["DEF PULLDOWN_SKIPF EQU"]
    anywhere is taken for patched: the patcher reports success, prints
    its two messages, and leaves every file as it was, so nothing is
    written and no backup is made. *)
Theorem marked_file_is_left_alone
    (host : Host) (repo : string) (w : world) (data : pystr) :
  let self := new_converter host repo in
  fs w !! video_asm self = Some (File data) →
  contains PATCHED_MARK (universal_newlines data) = true →
  patch_rgbds_syntax self w
  = (Return true,
     {| fs := fs w;
        stdout := stdout w ++ ["🔧 Checking RGBDS syntax compatibility...";
                               "   ✅ Already patched"];
        spawned := spawned w |}).
Proof.
  intros self Hw Hmark. exact (patch_already self w data Hw Hmark).
Qed.

Lemma marked_file_is_left_alone_sample :
  contains PATCHED_MARK (universal_newlines marked_asm) = true
  ∧ patch_rgbds_syntax sample_converter (world_with_asm marked_asm)
    = (Return true,
       {| fs := fs (world_with_asm marked_asm);
          stdout := ["🔧 Checking RGBDS syntax compatibility...";
                     "   ✅ Already patched"];
          spawned := [] |}).
Proof.
  split; [reflexivity|].
  apply (marked_file_is_left_alone sample_host "." (world_with_asm marked_asm)
           marked_asm); reflexivity.
Defined.

Lemma patch_rgbds_syntax_inserts_qualifier_MYCONST :
  let w := world_with_asm (lit "  MYCONST EQU 5") in
  matches_pattern (lit "  MYCONST EQU 5") (lit "  ") (lit "MYCONST")
                  (lit " EQU 5")
  ∧ fix_line (lit "  MYCONST EQU 5") = lit "  DEF MYCONST EQU 5"
  ∧ ∃ text,
      (patch_rgbds_syntax sample_converter w).1 = Return true
      ∧ fs (patch_rgbds_syntax sample_converter w).2
          !! video_asm sample_converter = Some (File text)
      ∧ length (split LF text) = 1%nat
      ∧ split LF text !! 0%nat = Some (lit "  DEF MYCONST EQU 5").
Proof.
  assert (Hm : matches_pattern (lit "  MYCONST EQU 5") (lit "  ")
                 (lit "MYCONST") (lit " EQU 5")).
  { constructor.
    - reflexivity.
    - repeat constructor.
    - exists 77, (lit "YCONST"). repeat split. repeat constructor.
    - exists (lit " "), (lit " "), (lit "5").
      repeat split; try discriminate; repeat constructor. }
  split; [exact Hm|].
  apply (patch_rgbds_syntax_inserts_qualifier sample_host "."
           (world_with_asm (lit "  MYCONST EQU 5")) (lit "  MYCONST EQU 5") 0
           (lit "  MYCONST EQU 5") (lit "  ") (lit "MYCONST") (lit " EQU 5"));
    try reflexivity; try discriminate; exact Hm.
Defined.

Lemma fix_line_passes_through_comment :
  startswith SEMICOLON (strip (lit "  ; OLD EQU 1")) = true
  ∧ fix_line (lit "  ; OLD EQU 1") = lit "  ; OLD EQU 1".
Proof.
  split; [reflexivity|].
  apply (fix_line_passes_through (lit "  ; OLD EQU 1")).
  left. reflexivity.
Defined.

(** C9. The patcher never reports a failure: it returns [True] when the
    file is missing, when it is taken for patched and when it is patched
    now (a directory in its place makes [open] raise).  The step of [main]
    that calls it therefore behaves as the same step without the warning
    branch. *)
Theorem patch_rgbds_syntax_always_succeeds (host : Host) (repo : string) :
  let self := new_converter host repo in
  (∀ w, (patch_rgbds_syntax self w).1
        = match fs w !! video_asm self with
          | Some Dir => Raise OSError
          | Some (File _) | None => Return true
          end)
  ∧ (∀ args w,
       patch_step args self w
       = (if skip_patch args then mret tt
          else patch_rgbds_syntax self ;; mret tt) w).
Proof.
  cbv zeta. pose proof (backup_is_another_file host repo) as Hne.
  revert Hne. generalize (new_converter host repo). intros self Hne.
  assert (Hcases : ∀ w,
    (∃ w', patch_rgbds_syntax self w = (Return true, w')
           ∧ fs w !! video_asm self ≠ Some Dir)
    ∨ (∃ w', patch_rgbds_syntax self w = (Raise OSError, w')
             ∧ fs w !! video_asm self = Some Dir)).
  { intros w. destruct (fs w !! video_asm self) as [[data|]|] eqn:Hw.
    - left. destruct (already_patched (universal_newlines data)) eqn:Hp.
      + rewrite (patch_already self w data Hw Hp). eauto.
      + rewrite (patch_now self w data Hne Hw Hp). eauto.
    - right. rewrite (patch_directory self w Hw). eauto.
    - left. rewrite (patch_missing self w Hw). eauto. }
  split.
  - intros w. destruct (Hcases w) as [(w' & -> & Hw)|(w' & -> & ->)];
      [|reflexivity].
    simpl. destruct (fs w !! video_asm self) as [[?|]|]; congruence.
  - intros args w. unfold patch_step. destruct (skip_patch args); simpl;
      [reflexivity|].
    cbv [mbind M_bind].
    destruct (Hcases w) as [(w' & -> & _)|(w' & -> & _)]; reflexivity.
Qed.

(** ** The dependency check *)

Lemma bare_host_report :
  check_dependencies bare_host fresh_world
  = (Return false,
     printed ["❌ Error: Missing required dependencies:";
              "  - FFmpeg (for video/audio processing) (ffmpeg)";
              nl +:+ "Install RGBDS from: https://rgbds.gbdev.io/"]
             fresh_world).
Proof. reflexivity. Qed.

(** C5, as stated, fails: with [ffmpeg] and Pillow both missing the report
    names [ffmpeg] only. *)
Lemma missing_library_is_not_listed :
  which bare_host "ffmpeg" = false
  ∧ importable bare_host "PIL" = false
  ∧ dependency_report bare_host
    = ["❌ Error: Missing required dependencies:";
       "  - FFmpeg (for video/audio processing) (ffmpeg)";
       nl +:+ "Install RGBDS from: https://rgbds.gbdev.io/"]
  ∧ ¬ listed "Pillow" (dependency_report bare_host).
Proof.
  split; [reflexivity|]. split; [reflexivity|]. split; [reflexivity|].
  intros (entry & Hin & Hsub).
  unfold dependency_report in Hin. rewrite bare_host_report in Hin.
  simpl in Hin. rewrite !elem_of_cons, elem_of_nil in Hin.
  destruct Hin as [->|[->|[->|[]]]]; vm_compute in Hsub; discriminate.
Qed.

Lemma not_report_lists_everything_missing : ¬ report_lists_everything_missing.
Proof.
  intros H. destruct (H bare_host) as (_ & Hpil & _).
  destruct (Hpil eq_refl) as (entry & Hin & Hsub).
  unfold dependency_report in Hin. rewrite bare_host_report in Hin.
  simpl in Hin. rewrite !elem_of_cons, elem_of_nil in Hin.
  destruct Hin as [->|[->|[->|[]]]]; vm_compute in Hsub; discriminate.
Qed.

Lemma prefix_app_l sub a b :
  String.prefix sub a = true → String.prefix sub (a +:+ b) = true.
Proof.
  revert a. induction sub as [|c sub IH]; intros a H.
  - destruct (a +:+ b); reflexivity.
  - destruct a as [|d a]; simpl in *; [discriminate|].
    destruct (ascii_dec c d); [apply IH; exact H | discriminate].
Qed.

Lemma prefix_refl s : String.prefix s s = true.
Proof.
  induction s as [|c s IH]; simpl; [reflexivity|].
  destruct (ascii_dec c c); [exact IH | congruence].
Qed.

Lemma str_contains_unfold sub s :
  str_contains sub s
  = String.prefix sub s
    || match s with EmptyString => false | String _ t => str_contains sub t end.
Proof. destruct s; reflexivity. Qed.

Lemma str_contains_refl s : str_contains s s = true.
Proof. rewrite str_contains_unfold, prefix_refl. reflexivity. Qed.

Lemma str_contains_app_l sub a b :
  str_contains sub a = true → str_contains sub (a +:+ b) = true.
Proof.
  induction a as [|c a IH]; intros H.
  - simpl in H. rewrite orb_false_r in H.
    destruct sub; [|discriminate]. destruct b; reflexivity.
  - rewrite str_contains_unfold in H. apply orb_true_iff in H as [H|H].
    + rewrite str_contains_unfold, (prefix_app_l _ _ _ H). reflexivity.
    + change (String c a +:+ b) with (String c (a +:+ b)).
      rewrite str_contains_unfold, (IH H). apply orb_true_r.
Qed.

Lemma str_contains_app_r sub a b :
  str_contains sub b = true → str_contains sub (a +:+ b) = true.
Proof.
  intros H. induction a as [|c a IH]; [exact H|].
  change (String c a +:+ b) with (String c (a +:+ b)).
  rewrite str_contains_unfold, IH. apply orb_true_r.
Qed.

Lemma str_contains_concat sub sep l x :
  x ∈ l → str_contains sub x = true →
  str_contains sub (String.concat sep l) = true.
Proof.
  intros Hin Hx. induction l as [|y [|z l] IH].
  - inversion Hin.
  - apply list_elem_of_singleton in Hin. subst. exact Hx.
  - change (String.concat sep (y :: z :: l))
      with (y +:+ sep +:+ String.concat sep (z :: l)).
    apply elem_of_cons in Hin as [->|Hin].
    + apply str_contains_app_l, Hx.
    + apply str_contains_app_r, str_contains_app_r, IH, Hin.
Qed.

Lemma dep_line_names_program dep : str_contains dep.1 (dep_line dep) = true.
Proof.
  unfold dep_line. do 3 apply str_contains_app_r.
  apply str_contains_app_l, str_contains_refl.
Qed.

Lemma missing_fold host (l : list (string * string)) (acc : list string) :
  fold_left
    (fun missing '(cmd, desc) =>
       if negb (which host cmd)
       then missing ++ ["  - " +:+ desc +:+ " (" +:+ cmd +:+ ")"]
       else missing)
    l acc
  = acc ++ List.map dep_line
             (List.filter (fun dep => negb (which host dep.1)) l).
Proof.
  revert acc. induction l as [|[cmd desc] l IH]; intros acc; simpl.
  - rewrite app_nil_r. reflexivity.
  - rewrite IH. destruct (which host cmd); simpl; [reflexivity|].
    rewrite <- app_assoc. reflexivity.
Qed.

(** The loop collects, in order, the line of every program that is not
    found: it does not stop at the first one. *)
Lemma missing_dependencies_all host :
  missing_dependencies host
  = List.map dep_line (List.filter (fun dep => negb (which host dep.1)) deps).
Proof. unfold missing_dependencies. rewrite missing_fold. reflexivity. Qed.

Lemma missing_program_line host cmd desc :
  (cmd, desc) ∈ deps → which host cmd = false →
  dep_line (cmd, desc) ∈ missing_dependencies host.
Proof.
  intros Hin Hw. rewrite missing_dependencies_all.
  apply list_elem_of_In, in_map, filter_In. split.
  - apply list_elem_of_In, Hin.
  - simpl. rewrite Hw. reflexivity.
Qed.

Lemma nothing_missing host :
  missing_dependencies host = [] ↔ all_programs_found host.
Proof.
  split.
  - intros He cmd desc Hin. destruct (which host cmd) eqn:Hw; [reflexivity|].
    pose proof (missing_program_line host cmd desc Hin Hw) as H.
    rewrite He in H. inversion H.
  - intros Hall. rewrite missing_dependencies_all.
    destruct (List.filter _ deps) as [|[cmd desc] l] eqn:E; [reflexivity|].
    assert (Hin : List.In (cmd, desc) (List.filter
              (fun dep => negb (which host dep.1)) deps))
      by (rewrite E; left; reflexivity).
    apply filter_In in Hin as [Hin Hw]. simpl in Hw.
    rewrite (Hall cmd desc) in Hw by (apply list_elem_of_In, Hin).
    discriminate.
Qed.

(** C5, amended. The check returns a verdict and only prints.  The verdict
    passes exactly when every program and both libraries are found.  The
    loop over the programs does not stop at the first one that is missing:
    every missing program is named in the report.  The libraries are looked
    at only when every program is found, and then the first missing one
    (Pillow before soundfile) is named. *)
Theorem check_dependencies_report (host : Host) :
  (∀ w, ∃ verdict,
      check_dependencies host w
      = (Return verdict, printed (dependency_report host) w)
      ∧ (verdict = true ↔
         all_programs_found host
         ∧ importable host "PIL" = true
         ∧ importable host "soundfile" = true))
  ∧ (∀ cmd desc, (cmd, desc) ∈ deps → which host cmd = false →
                 listed cmd (dependency_report host))
  ∧ (all_programs_found host → importable host "PIL" = false →
     listed "Pillow" (dependency_report host))
  ∧ (all_programs_found host → importable host "PIL" = true →
     importable host "soundfile" = false →
     listed "soundfile" (dependency_report host)).
Proof.
  pose proof (nothing_missing host) as Hnone.
  pose proof (missing_program_line host) as Hline.
  unfold dependency_report, check_dependencies.
  destruct (missing_dependencies host) as [|m ms] eqn:Em.
  - assert (Hall : all_programs_found host) by (apply Hnone; reflexivity).
    assert (Hno : ∀ cmd desc, (cmd, desc) ∈ deps → which host cmd = false →
                  ∀ report, listed cmd report).
    { intros cmd desc Hin Hw. specialize (Hline cmd desc Hin Hw).
      inversion Hline. }
    destruct (importable host "PIL") eqn:Hpil;
      [destruct (importable host "soundfile") eqn:Hsf|]; simpl.
    + split; [|split; [|split]].
      * intros w. exists true. split; [|tauto].
        unfold printed. rewrite app_nil_r. destruct w; reflexivity.
      * intros cmd desc Hin Hw. eapply Hno; eassumption.
      * intros _ H. discriminate.
      * intros _ _ H. discriminate.
    + split; [|split; [|split]].
      * intros w. exists false. split.
        -- run_M. rewrite <- app_assoc. reflexivity.
        -- split; [discriminate | intros (_ & _ & ?); discriminate].
      * intros cmd desc Hin Hw. eapply Hno; eassumption.
      * intros _ H. discriminate.
      * intros _ _ _. eexists. split; [left | reflexivity].
    + split; [|split; [|split]].
      * intros w. exists false. split.
        -- run_M. rewrite <- app_assoc. reflexivity.
        -- split; [discriminate | intros (_ & ? & _); discriminate].
      * intros cmd desc Hin Hw. eapply Hno; eassumption.
      * intros _ _. eexists. split; [left | reflexivity].
      * intros _ H. discriminate.
  - assert (Hsome : ¬ all_programs_found host).
    { intros Hall. apply Hnone in Hall. discriminate. }
    split; [|split; [|split]].
    + intros w. exists false. split.
      * run_M. rewrite <- !app_assoc. reflexivity.
      * split; [discriminate | intros (? & _); contradiction].
    + intros cmd desc Hin Hw. specialize (Hline cmd desc Hin Hw).
      exists (String.concat nl (m :: ms)). split.
      * simpl. right. left.
      * eapply str_contains_concat; [exact Hline|].
        apply (dep_line_names_program (cmd, desc)).
    + intros Hall. contradiction.
    + intros Hall. contradiction.
Qed.

(** ** Resolution and frame rate *)

(** C7. Profiles 0, 1 and 2 map to 160x72, 160x64 and 160x56; every other
    profile identifier gets the dimensions of profile 0. *)
Theorem resolution_mapping :
  resolution 0 = (160, 72)%Z
  ∧ resolution 1 = (160, 64)%Z
  ∧ resolution 2 = (160, 56)%Z
  ∧ ∀ config : Z,
      config ≠ 0%Z → config ≠ 1%Z → config ≠ 2%Z →
      resolution config = (160, 72)%Z ∧ resolution config = resolution 0.
Proof.
  repeat split; try reflexivity;
    unfold resolution, configs;
    rewrite !lookup_insert_ne, lookup_empty by congruence; reflexivity.
Qed.

Lemma resolution_mapping_unknown_profile :
  resolution 7 = (160, 72)%Z ∧ resolution (-1) = resolution 0.
Proof.
  destruct resolution_mapping as (_ & _ & _ & H). split.
  - apply (H 7%Z); discriminate.
  - apply (H (-1)%Z); discriminate.
Defined.

Lemma positive_is_nonzero (p : float) :
  PrimFloat.ltb 0 p = true → PrimFloat.eqb p 0 = false.
Proof.
  rewrite FloatAxioms.ltb_spec, FloatAxioms.eqb_spec.
  change (Prim2SF 0) with (S754_zero false).
  unfold SFltb, SFeqb.
  destruct (Prim2SF p) as [s|s| |s m e]; simpl; try discriminate;
    destruct s; simpl; congruence.
Qed.

(** ** What the stages start *)

Ltac case_match_hyp H :=
  match type of H with
  | context [match ?x with _ => _ end] =>
      lazymatch x with
      | context [match _ with _ => _ end] => fail
      | _ => destruct x eqn:?
      end
  | context [if ?x then _ else _] =>
      lazymatch x with
      | context [if _ then _ else _] => fail
      | context [match _ with _ => _ end] => fail
      | _ => destruct x eqn:?
      end
  end.

Ltac run_hyp H :=
  repeat (cbv [mbind M_bind mret M_ret print get_fs set_fs path_exists
               read_text write_text shutil_copy raise sys_exit lift_fs_op
               lift_exn printed updated run] in H;
          cbn [fs stdout spawned fst snd negb] in H).

Lemma extract_frames_spawned host self video_path config pulldown w b w' :
  extract_frames host self video_path config pulldown w = (Return b, w') →
  ∃ fps,
    derived_fps pulldown = inr fps
    ∧ spawned w'
      = spawned w
        ++ [Spawn (frames_cmd host video_path (frames_dir self)
                     (resolution config).1 (resolution config).2 fps) None].
Proof.
  unfold extract_frames. intros H.
  destruct (resolution config) as [width height]. run_hyp H.
  repeat (case_match_hyp H; run_hyp H; try discriminate);
    inversion H; subst; simpl; eauto.
Qed.

(** C8. For a positive timing parameter the frame rate of the extraction
    is the float quotient [30 / p]: 30.0 for 1.0, 60.0 for 0.5 and 15.0 for
    2.0.  It is the rate the extraction command is started with. *)
Theorem derived_fps_is_quotient :
  (∀ p : float, PrimFloat.ltb 0 p = true →
      derived_fps p = inr (PrimFloat.div 30 p))
  ∧ derived_fps 1%float = inr 30%float
  ∧ derived_fps 0.5%float = inr 60%float
  ∧ derived_fps 2%float = inr 15%float
  ∧ (∀ host self video_path config (p : float) w b w',
       PrimFloat.ltb 0 p = true →
       extract_frames host self video_path config p w = (Return b, w') →
       spawned w'
       = spawned w
         ++ [Spawn (frames_cmd host video_path (frames_dir self)
                      (resolution config).1 (resolution config).2
                      (PrimFloat.div 30 p)) None]).
Proof.
  assert (Hq : ∀ p : float, PrimFloat.ltb 0 p = true →
               derived_fps p = inr (PrimFloat.div 30 p)).
  { intros p Hp. unfold derived_fps, truediv.
    rewrite (positive_is_nonzero p Hp). reflexivity. }
  split; [exact Hq|]. repeat split; try reflexivity.
  intros host self video_path config p w b w' Hp H.
  apply extract_frames_spawned in H as (fps & Hfps & ->).
  rewrite (Hq p Hp) in Hfps. inversion Hfps. reflexivity.
Qed.

Lemma derived_fps_is_quotient_half :
  PrimFloat.ltb 0 0.5 = true ∧ derived_fps 0.5%float = inr 60%float.
Proof.
  split; [reflexivity|].
  exact (proj1 derived_fps_is_quotient 0.5%float eq_refl).
Defined.

(** C10. The division of line 138 has no guard.  For a nonzero timing
    parameter it yields the float quotient; for 0.0 (and -0.0) it raises
    [ZeroDivisionError], so [extract_frames] returns nothing for 0.0.  The
    command line puts no bound on the multiplier: [main] itself divides by
    it on line 283 and raises for 0.0 before any stage runs. *)
Theorem derived_fps_unguarded :
  (∀ p : float, PrimFloat.eqb p 0 = false →
      derived_fps p = inr (PrimFloat.div 30 p))
  ∧ derived_fps 0%float = inl ZeroDivisionError
  ∧ derived_fps (-0)%float = inl ZeroDivisionError
  ∧ (∀ host self video_path config w,
       (extract_frames host self video_path config 0%float w).1
       = Raise ZeroDivisionError
       ∨ (extract_frames host self video_path config 0%float w).1
         = Raise OSError)
  ∧ (∀ host args w,
       fps_multiplier args = 0%float →
       is_Some (fs w !! abspath host (input args)) →
       main host args w = (Raise ZeroDivisionError, w)).
Proof.
  split; [|split; [|split; [|split]]]; try reflexivity.
  - intros p Hp. unfold derived_fps, truediv. rewrite Hp. reflexivity.
  - intros host self video_path config w. unfold extract_frames.
    destruct (resolution config) as [width height].
    change (derived_fps 0) with (@inl exn float ZeroDivisionError). run_M.
    destruct (bool_decide _); run_M;
      repeat (match goal with
              | |- context [match ?x with _ => _ end] =>
                  lazymatch x with
                  | context [match _ with _ => _ end] => fail
                  | _ => destruct x eqn:?
                  end
              end; run_M); auto.
  - intros host args w Hzero Hin. unfold main. run_M.
    rewrite bool_decide_true by exact Hin. run_M.
    rewrite Hzero. destruct w; reflexivity.
Qed.

Lemma derived_fps_unguarded_half :
  PrimFloat.eqb 0.5 0 = false ∧ derived_fps 0.5%float = inr 60%float.
Proof.
  split; [reflexivity|].
  exact (proj1 derived_fps_unguarded 0.5%float eq_refl).
Defined.

(** ** A run of [main] *)

Lemma bind_return {A B} (m : M A) (k : A → M B) w a w' :
  m w = (Return a, w') → (m ≫= k) w = k a w'.
Proof. intros H. cbv [mbind M_bind]. rewrite H. reflexivity. Qed.

Lemma bind_print {B} line (k : unit → M B) w :
  (print line ≫= k) w = k tt (printed [line] w).
Proof. reflexivity. Qed.

Lemma printed_printed a b w : printed b (printed a w) = printed (a ++ b) w.
Proof. unfold printed. simpl. rewrite app_assoc. reflexivity. Qed.

Lemma check_dependencies_pass host w :
  all_programs_found host →
  importable host "PIL" = true →
  importable host "soundfile" = true →
  check_dependencies host w = (Return true, w).
Proof.
  intros Hall Hpil Hsf. unfold check_dependencies.
  apply nothing_missing in Hall. rewrite Hall, Hpil, Hsf. reflexivity.
Qed.

Lemma build_rom_spawned host self output_rom config pulldown sound w w' :
  build_rom host self output_rom config pulldown sound w = (Return true, w') →
  spawned w'
  = spawned w
    ++ [Spawn (make_cmd host config pulldown sound (fs w))
              (Some (repo_path self))].
Proof.
  unfold build_rom. intros H. run_hyp H.
  repeat (case_match_hyp H; run_hyp H; try discriminate);
    inversion H; subst; simpl; eauto.
Qed.

Lemma extract_audio_spawned host self video_path output_wav w b w' :
  extract_audio host self video_path output_wav w = (Return b, w') →
  spawned w' = spawned w ++ [Spawn (audio_cmd video_path output_wav) None].
Proof.
  unfold extract_audio. intros H. run_hyp H.
  repeat (case_match_hyp H; run_hyp H; try discriminate);
    inversion H; subst; simpl; eauto.
Qed.

(** The [SOUND] word is the only word of the [make] command that starts
    with ["SOUND="]. *)
Lemma make_cmd_sound host config pulldown sound f word :
  word ∈ make_cmd host config pulldown sound f →
  String.prefix "SOUND=" word = true →
  ∃ p, sound = Some p ∧ is_Some (f !! p) ∧ word = "SOUND=" +:+ path_str p.
Proof.
  unfold make_cmd. rewrite elem_of_app, !elem_of_cons, elem_of_nil.
  intros [[->|[->|[->|[->|[]]]]]|Hin] Hpre; try discriminate.
  destruct sound as [p|]; [|inversion Hin].
  destruct (bool_decide (is_Some (f !! p))) eqn:E; [|inversion Hin].
  apply list_elem_of_singleton in Hin. subst word.
  apply bool_decide_eq_true in E. eauto.
Qed.

(** C6. When the frames are extracted, the requested audio extraction
    fails and the build succeeds, [main] ends normally (exit status 0)
    after the success message, and [make] was started without a [SOUND]
    word.  In general a [SOUND] word is among the words of [make] only if
    audio was requested, its extraction succeeded, and the waveform file
    exists when the command is put together. *)
Theorem audio_failure_degrades
    (host : Host) (args : Args) (name : string) (target_fps : float)
    (w w0 w1 w2 w3 : world) :
  let converter := new_converter host (repo args) in
  let temp_wav := joinpath (repo_path converter) "sound.wav" in
  is_Some (fs w !! abspath host (input args)) →
  truediv 30 (fps_multiplier args) = inr target_fps →
  config_names !! config args = Some name →
  all_programs_found host →
  importable host "PIL" = true →
  importable host "soundfile" = true →
  patch_step args converter (printed (banner host args name target_fps) w)
  = (Return tt, w0) →
  no_audio args = false →
  extract_frames host converter (input args) (config args)
                 (fps_multiplier args) w0 = (Return true, w1) →
  extract_audio host converter (input args) temp_wav w1 = (Return false, w2) →
  build_rom host converter (output args) (config args) (fps_multiplier args)
            (sound_file args false temp_wav)
            (printed without_audio_lines w2) = (Return true, w3) →
  main host args w = (Return tt, printed (success_lines args) w3)
  ∧ exit_status (main host args w).1 = 0%Z
  ∧ sound_file args false temp_wav = None
  ∧ spawned w3
    = spawned w2
      ++ [Spawn [ "make"; "CONFIG=" +:+ str_int (config args);
                  "PULLDOWN=" +:+ str_float host (fps_multiplier args);
                  "FRAMEEXT=bmp" ]
                (Some (repo_path converter))]
  ∧ (∀ (args' : Args) (audio_success : bool) (wav : Path) f word,
       word ∈ make_cmd host (config args') (fps_multiplier args')
                       (sound_file args' audio_success wav) f →
       String.prefix "SOUND=" word = true →
       no_audio args' = false ∧ audio_success = true
       ∧ is_Some (f !! wav) ∧ word = "SOUND=" +:+ path_str wav).
Proof.
  intros converter temp_wav Hin Hfps Hname Hall Hpil Hsf Hpatch Haudio
         Hframes Hwav Hbuild.
  assert (Hmain : main host args w
                  = (Return tt, printed (success_lines args) w3)).
  { unfold main.
    rewrite (bind_return _ _ w true w)
      by (cbv [path_exists mbind M_bind get_fs mret M_ret];
          rewrite bool_decide_true by exact Hin; reflexivity).
    cbv beta. cbn [negb]. rewrite Hfps.
    rewrite (bind_return _ _ w target_fps w) by reflexivity. cbv beta.
    rewrite !bind_print. cbv beta. rewrite Hname.
    rewrite (bind_return _ _ _ name _) by reflexivity. cbv beta.
    rewrite !bind_print. cbv beta.
    rewrite (bind_return _ _ _ true _)
      by (apply check_dependencies_pass; assumption).
    cbv beta. cbn [negb]. rewrite bind_print.
    rewrite !printed_printed. cbn [app].
    fold converter. unfold banner in Hpatch.
    rewrite (bind_return _ _ _ tt w0) by exact Hpatch.
    fold temp_wav. unfold try_except, pipeline.
    rewrite (bind_return _ _ _ true w1) by exact Hframes.
    cbv beta. cbn [negb]. rewrite Haudio. cbn [negb].
    rewrite (bind_return _ _ w1 false (printed ["⚠️  Continuing without audio..."] w2)).
    2:{ rewrite (bind_return _ _ _ false w2) by exact Hwav.
        cbn [negb]. reflexivity. }
    rewrite !bind_print. rewrite !printed_printed. cbn [app].
    unfold without_audio_lines in Hbuild.
    unfold sound_file in *. rewrite Haudio in *. cbn [negb andb] in *.
    rewrite (bind_return _ _ _ true w3) by exact Hbuild.
    cbn [negb]. rewrite !bind_print. rewrite !printed_printed. cbn [app].
    cbv [print printed]. cbn [fs stdout spawned].
    rewrite <- app_assoc. reflexivity. }
  split; [exact Hmain|]. split; [rewrite Hmain; reflexivity|].
  split; [unfold sound_file; rewrite Haudio; reflexivity|].
  split.
  - apply build_rom_spawned in Hbuild. rewrite Hbuild.
    unfold sound_file. rewrite Haudio. reflexivity.
  - intros args' audio_success wav f word Hword Hpre.
    apply make_cmd_sound in Hword as (p & Hsound & Hp & ->); [|exact Hpre].
    unfold sound_file in Hsound.
    destruct (no_audio args'), audio_success; simpl in Hsound;
      try discriminate.
    inversion Hsound; subst. auto.
Qed.

Lemma audio_failure_degrades_sample :
  extract_audio sample_host sample_converter "in.mp4" sample_wav
                sample_after_frames
  = (Return false, sample_after_audio)
  ∧ exit_status (main sample_host sample_args sample_world).1 = 0%Z
  ∧ spawned sample_after_build
    = spawned sample_after_audio
      ++ [Spawn ["make"; "CONFIG=0"; "PULLDOWN=1.0"; "FRAMEEXT=bmp"]
                (Some ["work"])].
Proof.
  assert (Haudio :
    extract_audio sample_host sample_converter "in.mp4" sample_wav
                  sample_after_frames
    = (Return false, sample_after_audio)) by (vm_compute; reflexivity).
  split; [exact Haudio|].
  destruct (audio_failure_degrades sample_host sample_args "160x72" 30%float
              sample_world sample_after_patch sample_after_frames
              sample_after_audio sample_after_build)
    as (_ & Hexit & _ & Hspawn & _).
  - eexists. reflexivity.
  - reflexivity.
  - reflexivity.
  - intros cmd desc _. reflexivity.
  - reflexivity.
  - reflexivity.
  - vm_compute. reflexivity.
  - reflexivity.
  - vm_compute. reflexivity.
  - exact Haudio.
  - vm_compute. reflexivity.
  - split; [exact Hexit | exact Hspawn].
Defined.

(** * Further properties of the patcher *)

(** On a line of a split text, the loop body changes the line only when it
    is a candidate with the shape of the pattern. *)
Lemma fix_line_changed line :
  LF ∉ line →
  fix_line line = line
  ∨ ∃ indent symbol rest,
      skipped line = false
      ∧ matches_pattern line indent symbol rest
      ∧ fix_line line = indent ++ DEF_ ++ symbol ++ rest.
Proof.
  intros Hfree. unfold fix_line. destruct (skipped line) eqn:Hs; [left; reflexivity|].
  destruct (re_match_equ line) as [[[indent symbol] rest]|] eqn:E;
    [|left; reflexivity].
  right. exists indent, symbol, rest.
  split; [reflexivity|]. split; [|reflexivity].
  apply re_match_equ_sound; assumption.
Qed.

Lemma split_line_free content (i : nat) line :
  split LF content !! i = Some line → LF ∉ line.
Proof.
  intros Hi. pose proof (split_lines_free LF content) as Hall.
  rewrite Forall_forall in Hall. apply Hall.
  apply list_elem_of_lookup. eauto.
Qed.

(** X3. The text written back has as many lines as the text read, and
    each line is either the line read or, for a candidate line with the
    shape of the pattern, that line with the qualifier after its
    indentation: nothing but declarations is rewritten. *)
Theorem only_declarations_are_rewritten
    (content : pystr) (i : nat) (line : pystr) :
  split LF content !! i = Some line →
  length (split LF (patched_text content)) = length (split LF content)
  ∧ (split LF (patched_text content) !! i = Some line
     ∨ ∃ indent symbol rest,
         skipped line = false
         ∧ matches_pattern line indent symbol rest
         ∧ split LF (patched_text content) !! i
           = Some (indent ++ DEF_ ++ symbol ++ rest)).
Proof.
  intros Hi. rewrite patched_text_lines. split; [apply length_map|].
  assert (Hnew : List.map fix_line (split LF content) !! i
                 = Some (fix_line line))
    by (rewrite list_lookup_fmap, Hi; reflexivity).
  destruct (fix_line_changed line (split_line_free _ _ _ Hi))
    as [Hfix|(indent & symbol & rest & Hs & Hm & Hfix)];
    rewrite Hfix in Hnew; [left; exact Hnew|].
  right. exists indent, symbol, rest.
  split; [exact Hs|]. split; [exact Hm | exact Hnew].
Qed.

Lemma only_declarations_are_rewritten_sample :
  split LF (lit "; constants
A EQU 1") !! 1%nat = Some (lit "A EQU 1")
  ∧ length (split LF (patched_text (lit "; constants
A EQU 1"))) = 2%nat.
Proof.
  split; [reflexivity|].
  exact (proj1 (only_declarations_are_rewritten (lit "; constants
A EQU 1") 1 (lit "A EQU 1") eq_refl)).
Defined.

Lemma lstrip_spaces indent s :
  Forall (fun c => isspace c = true) indent → lstrip (indent ++ s) = lstrip s.
Proof.
  induction 1 as [|c t Hc _ IH]; [reflexivity|]. simpl. rewrite Hc. exact IH.
Qed.

Lemma lstrip_keeps_last a c :
  isspace c = false → ∃ a', lstrip (a ++ [c]) = a' ++ [c].
Proof.
  intros Hc. induction a as [|x a IH]; simpl.
  - rewrite Hc. exists []. reflexivity.
  - destruct (isspace x); [exact IH|]. exists (x :: a). reflexivity.
Qed.

(** A line with the shape of the pattern is neither blank nor a comment:
    trimmed, it starts with the first character of its identifier. *)
Lemma pattern_line_trimmed line indent symbol rest :
  matches_pattern line indent symbol rest →
  ∃ c t, strip line = c :: t ∧ is_ident_start c = true.
Proof.
  intros [-> Hind (c & cs & -> & Hc & _) _].
  assert (Hsp : isspace c = false)
    by apply ident_char_not_space, ident_start_is_char, Hc.
  unfold strip. rewrite (lstrip_spaces indent _ Hind).
  simpl. rewrite Hsp. unfold rstrip. simpl.
  destruct (lstrip_keeps_last (rev (cs ++ rest)) c Hsp) as [a' ->].
  rewrite rev_app_distr. simpl. exists c, (rev a'). split; [reflexivity | exact Hc].
Qed.

(** X4. Every line of the text written back is one the loop body leaves
    as it is, so patching the written text again changes no line.  A line
    written back may still have the shape of an unqualified declaration,
    but only when it holds ["DEF "], ["INCLUDE"], ["SECTION"] or ["EXPORT"]
    somewhere: such a line (["SECTION_COUNT EQU 4"]) is skipped by the tests
    of lines 56-59 and written back without the qualifier. *)
Theorem patched_lines_are_settled (content line : pystr) :
  line ∈ split LF (patched_text content) →
  fix_line line = line
  ∧ ∀ indent symbol rest,
      matches_pattern line indent symbol rest →
      skipped line = true
      ∧ (contains DEF_ line = true ∨ contains INCLUDE line = true
         ∨ contains SECTION line = true ∨ contains EXPORT line = true).
Proof.
  intros Hin.
  assert (Hfix : fix_line line = line).
  { rewrite patched_text_lines in Hin.
    apply list_elem_of_In, in_map_iff in Hin as (l0 & <- & _).
    apply fix_line_idem. }
  split; [exact Hfix|]. intros indent symbol rest Hm.
  assert (Hs : skipped line = true).
  { destruct (skipped line) eqn:Hs; [reflexivity|]. exfalso.
    assert (Hfree : LF ∉ line).
    { pose proof (split_lines_free LF (patched_text content)) as Hall.
      rewrite Forall_forall in Hall. apply Hall, Hin. }
    unfold fix_line in Hfix. rewrite Hs in Hfix.
    rewrite (re_match_equ_complete _ _ _ _ Hfree Hm) in Hfix.
    destruct Hm as [Hline _ _ _]. rewrite Hline in Hfix.
    apply (f_equal length) in Hfix. rewrite !length_app in Hfix.
    unfold DEF_ in Hfix. simpl in Hfix. lia. }
  split; [exact Hs|].
  destruct (pattern_line_trimmed _ _ _ _ Hm) as (c & t & Ht & Hc).
  unfold skipped in Hs. rewrite Ht in Hs.
  assert (Hsemi : startswith SEMICOLON (c :: t) = false).
  { change (startswith SEMICOLON (c :: t)) with ((59 =? c) && true).
    rewrite andb_true_r. unfold is_ident_start in Hc. class_to_prop Hc.
    apply N.eqb_neq. lia. }
  rewrite Hsemi, !orb_true_iff in Hs.
  destruct Hs as [[[[[Hs|Hs]|Hs]|Hs]|Hs]|Hs]; try discriminate; auto.
Qed.

Lemma patched_lines_are_settled_sample :
  lit "SECTION_COUNT EQU 4" ∈ split LF (patched_text (lit "; sizes
SECTION_COUNT EQU 4"))
  ∧ matches_pattern (lit "SECTION_COUNT EQU 4") [] (lit "SECTION_COUNT")
                    (lit " EQU 4")
  ∧ fix_line (lit "SECTION_COUNT EQU 4") = lit "SECTION_COUNT EQU 4"
  ∧ skipped (lit "SECTION_COUNT EQU 4") = true.
Proof.
  assert (Hin : lit "SECTION_COUNT EQU 4" ∈ split LF (patched_text (lit "; sizes
SECTION_COUNT EQU 4")))
    by (vm_compute; right; left).
  assert (Hm : matches_pattern (lit "SECTION_COUNT EQU 4") []
                 (lit "SECTION_COUNT") (lit " EQU 4")).
  { constructor.
    - reflexivity.
    - constructor.
    - exists 83, (lit "ECTION_COUNT"). repeat split. repeat constructor.
    - exists (lit " "), (lit " "), (lit "4").
      repeat split; try discriminate; repeat constructor. }
  split; [exact Hin|]. split; [exact Hm|].
  destruct (patched_lines_are_settled _ _ Hin) as [Hfix Hall].
  split; [exact Hfix|]. exact (proj1 (Hall _ _ _ Hm)).
Defined.

Lemma split_head sep s l ls : split sep s = l :: ls → ∃ b, s = l ++ b.
Proof.
  intros E. pose proof (join_split sep s) as Hj. rewrite E in Hj.
  destruct ls as [|l1 ls'].
  - exists []. rewrite app_nil_r. simpl in Hj. congruence.
  - rewrite join_cons in Hj. eexists. rewrite <- Hj. reflexivity.
Qed.

(** A line of a split text is a stretch of the text. *)
Lemma split_segment sep s l :
  l ∈ split sep s → ∃ a b, s = a ++ l ++ b.
Proof.
  revert l. induction s as [|c t IH]; simpl; intros l Hl.
  - apply list_elem_of_singleton in Hl. subst. exists [], []. reflexivity.
  - pose proof (split_nonempty sep t) as Hne.
    destruct (c =? sep).
    + apply elem_of_cons in Hl as [->|Hl].
      * exists [], (c :: t). reflexivity.
      * destruct (IH l Hl) as (a & b & ->). exists (c :: a), b. reflexivity.
    + destruct (split sep t) as [|l0 ls] eqn:E; [congruence|].
      apply elem_of_cons in Hl as [->|Hl].
      * destruct (split_head _ _ _ _ E) as (b & ->).
        exists [], b. reflexivity.
      * destruct (IH l) as (a & b & ->); [right; exact Hl|].
        exists (c :: a), b. reflexivity.
Qed.

Lemma contains_elim sub s :
  contains sub s = true → ∃ a b, s = a ++ sub ++ b.
Proof.
  induction s as [|c t IH]; rewrite contains_unfold; intros H;
    apply orb_true_iff in H as [H|H]; try discriminate.
  - apply startswith_eq in H. exists [], (drop (length sub) []).
    exact H.
  - apply startswith_eq in H. exists [], (drop (length sub) (c :: t)).
    exact H.
  - destruct (IH H) as (a & b & ->). exists (c :: a), b. reflexivity.
Qed.

Lemma contains_segment sub a l b :
  contains sub l = true → contains sub (a ++ l ++ b) = true.
Proof.
  intros H. destruct (contains_elim _ _ H) as (x & y & ->).
  replace (a ++ (x ++ sub ++ y) ++ b) with ((a ++ x) ++ sub ++ (y ++ b))
    by (rewrite <- !app_assoc; reflexivity).
  apply contains_app.
Qed.

Lemma re_match_equ_has_keyword line groups :
  re_match_equ line = Some groups → contains EQU line = true.
Proof.
  destruct groups as [[indent symbol] rest]. intros H.
  destruct (re_match_equ_parts _ _ _ _ H) as (tail & _ & Hm & ->).
  destruct Hm as [_ _ _ (ws1 & ws2 & value & -> & _)].
  replace (indent ++ symbol ++ (ws1 ++ EQU ++ ws2 ++ value) ++ tail)
    with ((indent ++ symbol ++ ws1) ++ EQU ++ (ws2 ++ value ++ tail))
    by (rewrite <- !app_assoc; reflexivity).
  apply contains_app.
Qed.

(** X5. A text in which the letters ["EQU"] do not occur is written back
    as it was read. *)
Theorem text_without_EQU_is_unchanged (content : pystr) :
  contains EQU content = false → patched_text content = content.
Proof.
  intros Hno. unfold patched_text.
  rewrite <- (join_split LF content) at 2. f_equal.
  rewrite <- (List.map_id (split LF content)) at 2.
  apply List.map_ext_in. intros l Hl. apply list_elem_of_In in Hl.
  unfold fix_line. destruct (skipped l); [reflexivity|].
  destruct (re_match_equ l) as [groups|] eqn:E; [|reflexivity].
  exfalso. apply re_match_equ_has_keyword in E.
  destruct (split_segment _ _ _ Hl) as (a & b & Hs).
  rewrite Hs, (contains_segment EQU a l b E) in Hno. discriminate.
Qed.

Lemma text_without_EQU_is_unchanged_sample :
  contains EQU (lit "; notes
  ld a, 1") = false
  ∧ patched_text (lit "; notes
  ld a, 1") = lit "; notes
  ld a, 1".
Proof.
  split; [reflexivity|].
  exact (text_without_EQU_is_unchanged (lit "; notes
  ld a, 1") eq_refl).
Defined.

(** The world a run of the patcher ends in, by the state of the file. *)
Lemma patch_rgbds_syntax_world self w :
  backup_of self ≠ video_asm self →
  ∃ lines,
    (patch_rgbds_syntax self w).2
    = updated
        (match fs w !! video_asm self with
         | Some (File data) =>
             if already_patched (universal_newlines data) then fs w
             else <[video_asm self
                    := File (patched_text (universal_newlines data))]>
                    (backed_up self (fs w) data)
         | Some Dir | None => fs w
         end) lines w.
Proof.
  intros Hne. destruct (fs w !! video_asm self) as [[data|]|] eqn:Hw.
  - destruct (already_patched (universal_newlines data)) eqn:Hp.
    + rewrite (patch_already self w data Hw Hp). eexists. reflexivity.
    + rewrite (patch_now self w data Hne Hw Hp). eexists. reflexivity.
  - rewrite (patch_directory self w Hw). eexists. reflexivity.
  - rewrite (patch_missing self w Hw). eexists. reflexivity.
Qed.

(** X1. The backup is made once and never overwritten: a backup that
    exists is left as it is, and one is made, as a copy of [video.asm] as
    it was on disk, exactly when a regular file without the marker is
    patched. *)
Theorem backup_is_made_once (host : Host) (repo : string) (w : world) :
  let self := new_converter host repo in
  let w' := (patch_rgbds_syntax self w).2 in
  fs w' !! backup_of self
  = match fs w !! backup_of self with
    | Some old => Some old
    | None =>
        match fs w !! video_asm self with
        | Some (File data) =>
            if already_patched (universal_newlines data) then None
            else Some (File data)
        | Some Dir | None => None
        end
    end.
Proof.
  cbv zeta. pose proof (backup_is_another_file host repo) as Hne.
  revert Hne. generalize (new_converter host repo). intros self Hne.
  destruct (patch_rgbds_syntax_world self w Hne) as (lines & ->). simpl.
  destruct (fs w !! video_asm self) as [[data|]|] eqn:Hw;
    try (destruct (fs w !! backup_of self); reflexivity).
  destruct (already_patched (universal_newlines data));
    [destruct (fs w !! backup_of self); reflexivity|].
  rewrite lookup_insert_ne by congruence. unfold backed_up.
  destruct (fs w !! backup_of self) eqn:Hb; [exact Hb|].
  apply lookup_insert_eq.
Qed.

(** X2. The patcher starts no process and changes no file but
    [video.asm] and its backup; [video.asm] itself changes only when it is
    a regular file without the marker, and then holds the rewritten
    text. *)
Theorem patcher_touches_two_files (host : Host) (repo : string) (w : world) :
  let self := new_converter host repo in
  let w' := (patch_rgbds_syntax self w).2 in
  spawned w' = spawned w
  ∧ (∀ p, p ≠ video_asm self → p ≠ backup_of self →
          fs w' !! p = fs w !! p)
  ∧ fs w' !! video_asm self
    = match fs w !! video_asm self with
      | Some (File data) =>
          if already_patched (universal_newlines data)
          then Some (File data)
          else Some (File (patched_text (universal_newlines data)))
      | other => other
      end.
Proof.
  cbv zeta. pose proof (backup_is_another_file host repo) as Hne.
  revert Hne. generalize (new_converter host repo). intros self Hne.
  destruct (patch_rgbds_syntax_world self w Hne) as (lines & ->). simpl.
  split; [reflexivity|]. split.
  - intros p Hva Hbk.
    destruct (fs w !! video_asm self) as [[data|]|]; try reflexivity.
    destruct (already_patched (universal_newlines data)); [reflexivity|].
    rewrite lookup_insert_ne by congruence. unfold backed_up.
    destruct (fs w !! backup_of self); [reflexivity|].
    apply lookup_insert_ne. congruence.
  - destruct (fs w !! video_asm self) as [[data|]|] eqn:Hw; try exact Hw.
    destruct (already_patched (universal_newlines data)); [exact Hw|].
    apply lookup_insert_eq.
Qed.

(** * Further properties of the stages *)

Lemma dep_line_injective_on_deps d d' :
  d ∈ deps → d' ∈ deps → dep_line d = dep_line d' → d = d'.
Proof.
  unfold deps. rewrite !elem_of_cons, !elem_of_nil.
  intros [->|[->|[->|[->|[->|[]]]]]] [->|[->|[->|[->|[->|[]]]]]] H;
    try reflexivity; vm_compute in H; discriminate.
Qed.

(** X6. The report of missing programs is exact: the loop collects, in
    the order of [deps], the line of every program that is not found and
    of no program that is found; when that list is not empty the check
    prints it between its heading and the install hint and returns
    [False]. *)
Theorem missing_programs_are_reported_exactly (host : Host) :
  missing_dependencies host
  = List.map dep_line
      (List.filter (fun dep => negb (which host dep.1)) deps)
  ∧ (∀ cmd desc, (cmd, desc) ∈ deps →
       (dep_line (cmd, desc) ∈ missing_dependencies host
        ↔ which host cmd = false))
  ∧ (∀ w, missing_dependencies host ≠ [] →
       check_dependencies host w
       = (Return false,
          printed ["❌ Error: Missing required dependencies:";
                   String.concat nl (missing_dependencies host);
                   nl +:+ "Install RGBDS from: https://rgbds.gbdev.io/"] w)).
Proof.
  split; [apply missing_dependencies_all|]. split.
  - intros cmd desc Hin. split; [|apply missing_program_line; exact Hin].
    rewrite missing_dependencies_all. intros H.
    apply list_elem_of_In, in_map_iff in H as (d' & Heq & Hd').
    apply filter_In in Hd' as [Hd' Hw]. apply list_elem_of_In in Hd'.
    apply (dep_line_injective_on_deps d' (cmd, desc) Hd' Hin) in Heq.
    subst d'. simpl in Hw. apply negb_true_iff in Hw. exact Hw.
  - intros w Hne. unfold check_dependencies.
    destruct (missing_dependencies host) as [|m ms]; [congruence|].
    run_M. rewrite <- !app_assoc. reflexivity.
Qed.

(** X7. [extract_frames] returns a verdict only after it reset the frames
    directory (removed when it existed, then created) and ran the
    extraction command on the result; the verdict is [True] exactly when
    the exit status is 0, the files are as the command left them, and on a
    failure the error stream of the command is printed after the error
    prefix. *)
Theorem extract_frames_verdict
    (host : Host) (self : GameBoyVideoConverter) (video_path : string)
    (config : Z) (pulldown : float) (w : world) (b : bool) (w' : world) :
  extract_frames host self video_path config pulldown w = (Return b, w') →
  ∃ f0 f1 cp fps,
    (if bool_decide (is_Some (fs w !! frames_dir self))
     then rmtree host (frames_dir self) (fs w) = Some f0
     else f0 = fs w)
    ∧ mkdir_parents host (frames_dir self) f0 = Some f1
    ∧ derived_fps pulldown = inr fps
    ∧ subprocess_run host
        (frames_cmd host video_path (frames_dir self)
           (resolution config).1 (resolution config).2 fps) None f1
      = (inr cp, fs w')
    ∧ b = (returncode cp =? 0)%Z
    ∧ stdout w'
      = stdout w
        ++ [nl +:+ "[1/5] 🎬 Extracting frames from video...";
            if b
            then "   ✅ Extracted "
                 +:+ str_int (count_bmp host (frames_dir self) (fs w'))
                 +:+ " frames at " +:+ str_int (resolution config).1
                 +:+ "x" +:+ str_int (resolution config).2 +:+ " ("
                 +:+ format_1f host fps +:+ " fps)"
            else "❌ Error extracting frames: " +:+ cp_stderr cp].
Proof.
  unfold extract_frames. intros H.
  destruct (resolution config) as [width height]. run_hyp H.
  destruct (bool_decide (is_Some (fs w !! frames_dir self))) eqn:Hdir;
    run_hyp H;
    repeat (case_match_hyp H; run_hyp H; try discriminate).
  all: inversion H; subst; clear H; cbn [fs stdout spawned fst snd].
  all: lazymatch goal with
       | Hr : subprocess_run _ _ _ ?f1 = (inr ?cp, _),
         Hm : mkdir_parents _ _ ?f0 = Some ?f1,
         Hq : derived_fps _ = inr ?fps |- _ =>
           exists f0, f1, cp, fps
       end.
  all: repeat (split; [first [assumption | reflexivity]|]).
  all: destruct (returncode _ =? 0)%Z; try discriminate.
  all: split; [reflexivity|]; rewrite <- app_assoc; reflexivity.
Qed.

Lemma extract_frames_verdict_sample :
  extract_frames sample_host sample_converter "in.mp4" 0 1%float
                 sample_after_patch
  = (Return true, sample_after_frames)
  ∧ ∃ cp, true = (returncode cp =? 0)%Z.
Proof.
  assert (H : extract_frames sample_host sample_converter "in.mp4" 0 1%float
                sample_after_patch
              = (Return true, sample_after_frames))
    by (vm_compute; reflexivity).
  split; [exact H|].
  destruct (extract_frames_verdict _ _ _ _ _ _ _ _ H)
    as (f0 & f1 & cp & fps & _ & _ & _ & _ & Hb & _).
  exists cp. exact Hb.
Defined.

Ltac never_exits H :=
  run_hyp H;
  repeat (case_match_hyp H; run_hyp H);
  inversion H; discriminate.

(** X8. Only [main] ends the process: none of the five methods of the
    converter calls [sys.exit], whatever the host does. *)
Theorem only_main_exits
    (host : Host) (self : GameBoyVideoConverter) (w : world) (code : Z) :
  (patch_rgbds_syntax self w).1 ≠ SysExit code
  ∧ (check_dependencies host w).1 ≠ SysExit code
  ∧ (∀ video_path config pulldown,
       (extract_frames host self video_path config pulldown w).1
       ≠ SysExit code)
  ∧ (∀ video_path output_wav,
       (extract_audio host self video_path output_wav w).1 ≠ SysExit code)
  ∧ (∀ output_rom config pulldown sound_path,
       (build_rom host self output_rom config pulldown sound_path w).1
       ≠ SysExit code).
Proof.
  repeat split.
  - destruct (patch_rgbds_syntax self w) as [r w'] eqn:H.
    unfold patch_rgbds_syntax in H. simpl. intros ->. never_exits H.
  - destruct (check_dependencies host w) as [r w'] eqn:H.
    unfold check_dependencies in H. simpl. intros ->. never_exits H.
  - intros video_path config pulldown.
    destruct (extract_frames host self video_path config pulldown w)
      as [r w'] eqn:H.
    unfold extract_frames in H. destruct (resolution config).
    simpl. intros ->. never_exits H.
  - intros video_path output_wav.
    destruct (extract_audio host self video_path output_wav w)
      as [r w'] eqn:H.
    unfold extract_audio in H. simpl. intros ->. never_exits H.
  - intros output_rom config pulldown sound_path.
    destruct (build_rom host self output_rom config pulldown sound_path w)
      as [r w'] eqn:H.
    unfold build_rom in H. simpl. intros ->. never_exits H.
Qed.

Lemma path_name_joinpath p name : path_name (joinpath p name) = name.
Proof. unfold path_name, joinpath. apply List.last_last. Qed.

(** X9. Without a [Makefile] at the root of the repository [build_rom]
    reports the error and returns [False]: no command is started and no
    file is touched. *)
Theorem build_rom_without_makefile
    (host : Host) (self : GameBoyVideoConverter) (output_rom : string)
    (config : Z) (pulldown : float) (sound_path : option Path) (w : world) :
  fs w !! makefile self = None →
  build_rom host self output_rom config pulldown sound_path w
  = (Return false,
     printed [nl +:+ "[5/5] 🔨 Building Game Boy ROM...";
              "❌ Error: Makefile not found at " +:+ path_str (makefile self)]
             w).
Proof.
  intros H. unfold build_rom. run_M. rewrite H.
  rewrite bool_decide_false by (intros [? ?]; discriminate). run_M.
  rewrite <- app_assoc. reflexivity.
Qed.

Lemma build_rom_without_makefile_sample :
  fs fresh_world !! makefile sample_converter = None
  ∧ (build_rom sample_host sample_converter "out.gb" 0 1%float None
               fresh_world).1 = Return false
  ∧ spawned (build_rom sample_host sample_converter "out.gb" 0 1%float None
                       fresh_world).2 = [].
Proof.
  split; [reflexivity|].
  rewrite (build_rom_without_makefile sample_host sample_converter "out.gb"
             0 1%float None fresh_world eq_refl).
  split; reflexivity.
Defined.

(** X10. [build_rom] returns [True] only if the [Makefile] was there,
    [make] ended with status 0 and left [video.gb] behind.  The ROM is
    then copied, not moved: [video.gb] is still there, the output path (or
    [video.gb] inside it when it is a directory) holds the same data, and
    no other file differs from what [make] left. *)
Theorem build_rom_success
    (host : Host) (self : GameBoyVideoConverter) (output_rom : string)
    (config : Z) (pulldown : float) (sound_path : option Path)
    (w w' : world) :
  build_rom host self output_rom config pulldown sound_path w
  = (Return true, w') →
  ∃ cp f' data,
    let built_rom := joinpath (repo_path self) "video.gb" in
    let target :=
      match f' !! abspath host output_rom with
      | Some Dir => joinpath (abspath host output_rom) "video.gb"
      | Some (File _) | None => abspath host output_rom
      end in
    is_Some (fs w !! makefile self)
    ∧ subprocess_run host (make_cmd host config pulldown sound_path (fs w))
        (Some (repo_path self)) (fs w) = (inr cp, f')
    ∧ returncode cp = 0%Z
    ∧ f' !! built_rom = Some (File data)
    ∧ fs w' = <[target := File data]> f'
    ∧ fs w' !! target = Some (File data)
    ∧ fs w' !! built_rom = Some (File data).
Proof.
  unfold build_rom. intros H. run_hyp H.
  rewrite ?path_name_joinpath in H.
  repeat (case_match_hyp H; run_hyp H; try discriminate).
  all: inversion H; subst; clear H; cbn [fs stdout spawned fst snd] in *.
  all: lazymatch goal with
       | Hr : subprocess_run _ _ _ _ = (inr ?cp, ?f'),
         Hb : ?f' !! joinpath (repo_path _) "video.gb" = Some (File ?data)
         |- _ =>
           exists cp, f', data; cbv zeta
       end.
  all: repeat match goal with
              | E : negb ?x = false |- _ => apply negb_false_iff in E
              end.
  all: repeat match goal with
              | E : _ !! abspath _ _ = _ |- _ => rewrite E
              end.
  all: split; [match goal with
               | E : bool_decide (is_Some (fs _ !! _)) = true |- _ =>
                   apply bool_decide_eq_true in E; exact E
               end|].
  all: split; [first [assumption | reflexivity]|].
  all: split; [match goal with
               | E : (_ =? _)%Z = true |- _ => apply Z.eqb_eq in E; exact E
               end|].
  all: split; [assumption|]. all: split; [reflexivity|].
  all: split; [apply lookup_insert_eq|].
  all: match goal with
       | |- <[?t := _]> _ !! ?p = _ =>
           destruct (decide (t = p)) as [->|Hne];
             [apply lookup_insert_eq
             | rewrite lookup_insert_ne by exact Hne; assumption]
       end.
Qed.

Lemma build_rom_success_sample :
  build_rom sample_host sample_converter "out.gb" 0 1%float None
            (printed without_audio_lines sample_after_audio)
  = (Return true, sample_after_build)
  ∧ fs sample_after_build !! ["work"; "out.gb"] = Some (File [])
  ∧ fs sample_after_build !! ["work"; "video.gb"] = Some (File []).
Proof.
  assert (H : build_rom sample_host sample_converter "out.gb" 0 1%float None
                (printed without_audio_lines sample_after_audio)
              = (Return true, sample_after_build))
    by (vm_compute; reflexivity).
  split; [exact H|].
  destruct (build_rom_success _ _ _ _ _ _ _ _ H)
    as (cp & f' & data & _ & _ & _ & _ & _ & _ & _).
  split; vm_compute; reflexivity.
Defined.

Ltac stage_cases H :=
  run_hyp H;
  repeat (case_match_hyp H; run_hyp H);
  inversion H; subst; clear H; cbn [fs stdout spawned fst snd] in *.

(** X11. When [build_rom] returns [False] it has copied nothing: either
    the [Makefile] was missing and nothing happened, or [make] ran and the
    files are as it left them, with a non-zero status or without
    [video.gb]. *)
Theorem build_rom_failure_copies_nothing
    (host : Host) (self : GameBoyVideoConverter) (output_rom : string)
    (config : Z) (pulldown : float) (sound_path : option Path)
    (w w' : world) :
  build_rom host self output_rom config pulldown sound_path w
  = (Return false, w') →
  (fs w !! makefile self = None
   ∧ fs w' = fs w ∧ spawned w' = spawned w)
  ∨ ∃ cp,
      subprocess_run host (make_cmd host config pulldown sound_path (fs w))
        (Some (repo_path self)) (fs w) = (inr cp, fs w')
      ∧ (returncode cp ≠ 0%Z
         ∨ fs w' !! joinpath (repo_path self) "video.gb" = None).
Proof.
  unfold build_rom. intros H. run_hyp H.
  repeat (case_match_hyp H; run_hyp H; try discriminate).
  all: inversion H; subst; clear H; cbn [fs stdout spawned fst snd] in *.
  all: repeat match goal with
              | E : negb ?x = true |- _ => apply negb_true_iff in E
              | E : negb ?x = false |- _ => apply negb_false_iff in E
              end.
  all: try (left; split; [|split; reflexivity];
            match goal with
            | E : bool_decide (is_Some ?o) = false |- _ =>
                apply bool_decide_eq_false in E;
                destruct o eqn:?; [exfalso; apply E; eauto | reflexivity]
            end).
  all: right; eexists; split; [reflexivity|].
  all: try (left;
            match goal with
            | E : (_ =? _)%Z = false |- _ => apply Z.eqb_neq in E; exact E
            end).
  all: right;
       match goal with
       | E : bool_decide (is_Some ?o) = false |- _ =>
           apply bool_decide_eq_false in E;
           destruct o eqn:?; [exfalso; apply E; eauto | assumption || reflexivity]
       end.
Qed.

Lemma build_rom_failure_copies_nothing_sample :
  build_rom sample_host sample_converter "out.gb" 0 1%float None fresh_world
  = (Return false,
     printed [nl +:+ "[5/5] 🔨 Building Game Boy ROM...";
              "❌ Error: Makefile not found at /work/Makefile"] fresh_world)
  ∧ fs fresh_world !! makefile sample_converter = None.
Proof.
  assert (H : build_rom sample_host sample_converter "out.gb" 0 1%float None
                fresh_world
              = (Return false,
                 printed [nl +:+ "[5/5] 🔨 Building Game Boy ROM...";
                          "❌ Error: Makefile not found at /work/Makefile"]
                         fresh_world))
    by (vm_compute; reflexivity).
  split; [exact H|].
  destruct (build_rom_failure_copies_nothing _ _ _ _ _ _ _ _ H)
    as [(Hm & _)|(cp & _ & _)]; reflexivity.
Defined.

(** X20. The ROM is never copied onto itself.  When [make] succeeded and
    left [video.gb], and the output path denotes that very file, or the
    repository directory (into which the copy would go under the name
    [video.gb]), [shutil.copy] raises [SameFileError], an [OSError]:
    [build_rom] returns nothing, prints nothing after its heading, and
    leaves the files as [make] left them. *)
Theorem build_rom_onto_itself
    (host : Host) (self : GameBoyVideoConverter) (output_rom : string)
    (config : Z) (pulldown : float) (sound_path : option Path)
    (w : world) (cp : CompletedProcess) (f' : filesystem) (data : pystr) :
  let built_rom := joinpath (repo_path self) "video.gb" in
  let cmd := make_cmd host config pulldown sound_path (fs w) in
  is_Some (fs w !! makefile self) →
  subprocess_run host cmd (Some (repo_path self)) (fs w) = (inr cp, f') →
  returncode cp = 0%Z →
  f' !! built_rom = Some (File data) →
  abspath host output_rom = built_rom
  ∨ (abspath host output_rom = repo_path self
     ∧ f' !! repo_path self = Some Dir) →
  build_rom host self output_rom config pulldown sound_path w
  = (Raise OSError,
     {| fs := f';
        stdout := stdout w ++ [nl +:+ "[5/5] 🔨 Building Game Boy ROM..."];
        spawned := spawned w ++ [Spawn cmd (Some (repo_path self))] |}).
Proof.
  intros built_rom cmd Hm Hrun Hcode Hb Hout. subst built_rom cmd.
  unfold build_rom. run_M. rewrite bool_decide_true by exact Hm.
  cbn [negb]. unfold run. run_M. rewrite Hrun. run_M.
  rewrite Hcode. cbn [Z.eqb negb]. run_M. rewrite Hb.
  rewrite bool_decide_true by eauto. cbn [negb]. run_M. rewrite Hb.
  destruct Hout as [->|[-> Hd]].
  - rewrite Hb. rewrite bool_decide_true by reflexivity. reflexivity.
  - rewrite Hd, path_name_joinpath.
    rewrite bool_decide_true by reflexivity. reflexivity.
Qed.

Lemma build_rom_onto_itself_sample :
  abspath sample_host "video.gb" = joinpath (repo_path sample_converter) "video.gb"
  ∧ (build_rom sample_host sample_converter "video.gb" 0 1%float None
               sample_world).1 = Raise OSError
  ∧ (build_rom sample_host sample_converter "out.gb" 0 1%float None
               sample_world).1 = Return true.
Proof.
  split; [reflexivity|]. split; [|vm_compute; reflexivity].
  rewrite (build_rom_onto_itself sample_host sample_converter "video.gb"
             0 1%float None sample_world (quiet 0)
             (<[ ["work"; "video.gb"] := File [] ]> (fs sample_world)) []).
  - reflexivity.
  - vm_compute. eauto.
  - reflexivity.
  - reflexivity.
  - reflexivity.
  - left. reflexivity.
Defined.

(** * Further properties of [main] *)

Lemma bind_inv {A B} (m : M A) (k : A → M B) w r w' :
  (m ≫= k) w = (r, w') →
  (∃ a w1, m w = (Return a, w1) ∧ k a w1 = (r, w'))
  ∨ (∃ e, m w = (Raise e, w') ∧ r = Raise e)
  ∨ (∃ c, m w = (SysExit c, w') ∧ r = SysExit c).
Proof.
  cbv [mbind M_bind]. destruct (m w) as [[a|e|c] w1]; intros H.
  - left. eauto.
  - right. left. inversion H. eauto.
  - right. right. inversion H. eauto.
Qed.

Lemma check_dependencies_outcome host w :
  ∃ verdict,
    check_dependencies host w
    = (Return verdict, printed (dependency_report host) w).
Proof.
  unfold dependency_report, check_dependencies.
  destruct (missing_dependencies host);
    [destruct (importable host "PIL");
       [destruct (importable host "soundfile")|]|];
    eexists; run_M; rewrite <- ?app_assoc; try reflexivity.
  rewrite app_nil_r. destruct w; reflexivity.
Qed.

Lemma patch_step_any args self w r w' :
  patch_step args self w = (r, w') →
  spawned w' = spawned w ∧ (r = Return tt ∨ ∃ e, r = Raise e).
Proof.
  unfold patch_step, patch_rgbds_syntax. intros H.
  destruct (skip_patch args); stage_cases H; eauto.
Qed.

Lemma extract_frames_any host self video_path config pulldown w r w' :
  extract_frames host self video_path config pulldown w = (r, w') →
  returns_or_raises r
  ∧ ((spawned w' = spawned w ∧ ∃ e, r = Raise e)
     ∨ ∃ fps,
         derived_fps pulldown = inr fps
         ∧ spawned w'
           = spawned w
             ++ [Spawn (frames_cmd host video_path (frames_dir self)
                          (resolution config).1 (resolution config).2 fps)
                       None]).
Proof.
  unfold extract_frames, returns_or_raises. intros H.
  destruct (resolution config) as [width height].
  stage_cases H; split; eauto.
Qed.

Lemma extract_audio_any host self video_path output_wav w r w' :
  extract_audio host self video_path output_wav w = (r, w') →
  returns_or_raises r
  ∧ spawned w' = spawned w ++ [Spawn (audio_cmd video_path output_wav) None].
Proof.
  unfold extract_audio, returns_or_raises. intros H.
  stage_cases H; split; eauto.
Qed.

Lemma build_rom_any host self output_rom config pulldown sound w r w' :
  build_rom host self output_rom config pulldown sound w = (r, w') →
  returns_or_raises r
  ∧ (spawned w' = spawned w
     ∨ spawned w'
       = spawned w
         ++ [Spawn (make_cmd host config pulldown sound (fs w))
                   (Some (repo_path self))]).
Proof.
  unfold build_rom, returns_or_raises. intros H.
  stage_cases H; split; eauto.
Qed.

(** The optional audio step of lines 315-319. *)
Lemma audio_step_cases host args conv wav w1 r w2 :
  (if negb (no_audio args) then
     audio_success ← extract_audio host conv (input args) wav;
     (if negb audio_success
      then print "⚠️  Continuing without audio..." else mret tt);;
     mret audio_success
   else mret false) w1 = (r, w2) →
  returns_or_raises r
  ∧ ((no_audio args = true ∧ r = Return false ∧ w2 = w1)
     ∨ (no_audio args = false
        ∧ spawned w2
          = spawned w1 ++ [Spawn (audio_cmd (input args) wav) None])).
Proof.
  destruct (no_audio args); cbn [negb]; intros H.
  - inversion H. split; [left; eauto | left; auto].
  - apply bind_inv in H as [(a & wa & Ha & H)|[(e & Ha & ->)|(c & Ha & ->)]];
      apply extract_audio_any in Ha as [Hr Hs].
    + split; [|right; split; [reflexivity|]].
      * destruct a; cbn [negb] in H; [|rewrite bind_print in H];
          inversion H; left; eauto.
      * destruct a; cbn [negb] in H; [|rewrite bind_print in H];
          inversion H; subst; exact Hs.
    + split; [right; eauto | right; auto].
    + destruct Hr as [[? ?]|[? ?]]; discriminate.
Qed.

(** Every run of the body of the [try] statement. *)
Lemma pipeline_body_cases host args w0 r w' :
  let conv := new_converter host (repo args) in
  let wav := joinpath (repo_path conv) "sound.wav" in
  pipeline host args conv wav w0 = (r, w') →
  (∃ new, spawned w' = spawned w0 ++ new ∧ pipeline_spawns host args new)
  ∧ (r = SysExit 1
     ∨ (∃ e, r = Raise e)
     ∨ (r = Return tt
        ∧ ∃ w1 w2 w3 sound,
            extract_frames host conv (input args) (config args)
                           (fps_multiplier args) w0 = (Return true, w1)
            ∧ build_rom host conv (output args) (config args)
                        (fps_multiplier args) sound w2 = (Return true, w3)
            ∧ w' = printed (success_lines args) w3)).
Proof.
  intros conv wav Hp. unfold pipeline in Hp.
  apply bind_inv in Hp as [(ok & w1 & Hf & Hp)|[(e & Hf & ->)|(c & Hf & ->)]];
    pose proof (extract_frames_any _ _ _ _ _ _ _ _ Hf) as [Hfr Hfs].
  2:{ split; [|right; left; eauto].
      destruct Hfs as [[Hs _]|(fps & Hfps & Hs)].
      - exists []. rewrite app_nil_r. split; [exact Hs | left; reflexivity].
      - eexists. split; [exact Hs|]. right. exists fps. auto. }
  2:{ destruct Hfr as [[? ?]|[? ?]]; discriminate. }
  destruct Hfs as [[_ [e He]]|(fps & Hfps & Hs1)]; [discriminate|].
  destruct ok; cbn [negb] in Hp.
  2:{ inversion Hp; subst. split; [|left; reflexivity].
      eexists. split; [exact Hs1|]. right. exists fps. auto. }
  apply bind_inv in Hp as [(a & w2 & Ha & Hp)|[(e & Ha & ->)|(c & Ha & ->)]];
    pose proof (audio_step_cases _ _ _ _ _ _ _ Ha) as [Har Has].
  2:{ split; [|right; left; eauto].
      destruct Has as [(_ & Hr & _)|(Hna & Hs2)]; [discriminate|].
      eexists. rewrite Hs2, Hs1, <- app_assoc. split; [reflexivity|].
      right. exists fps. split; [exact Hfps|]. right. left. auto. }
  2:{ destruct Har as [[? ?]|[? ?]]; discriminate. }
  rewrite !bind_print, !printed_printed in Hp. cbn [app] in Hp.
  apply bind_inv in Hp as [(built & w3 & Hb & Hp)|[(e & Hb & ->)|(c & Hb & ->)]];
    pose proof (build_rom_any _ _ _ _ _ _ _ _ _ Hb) as [Hbr Hbs];
    cbn [fs spawned printed] in Hbs.
  3:{ destruct Hbr as [[? ?]|[? ?]]; discriminate. }
  - assert (Hshape : ∃ new, spawned w3 = spawned w0 ++ new
                            ∧ pipeline_spawns host args new).
    { destruct Has as [(Hna & Hr & ->)|(Hna & Hs2)].
      - inversion Hr; subst a.
        destruct Hbs as [Hs3|Hs3]; rewrite Hs3, Hs1.
        + eexists. split; [reflexivity|]. right. exists fps. auto.
        + eexists. rewrite <- app_assoc. split; [reflexivity|].
          right. exists fps. split; [exact Hfps|]. right. right.
          exists (sound_file args false wav), (fs w1). left.
          split; [exact Hna|]. split; [|reflexivity].
          unfold sound_file. rewrite Hna. reflexivity.
      - destruct Hbs as [Hs3|Hs3]; rewrite Hs3, Hs2, Hs1, <- ?app_assoc.
        + eexists. split; [reflexivity|]. right. exists fps.
          split; [exact Hfps|]. right. left. auto.
        + eexists. split; [reflexivity|]. right. exists fps.
          split; [exact Hfps|]. right. right.
          exists (sound_file args a wav), (fs w2). right. auto. }
    destruct built; cbn [negb] in Hp.
    + rewrite !bind_print, !printed_printed in Hp. cbn [app] in Hp.
      cbv [print] in Hp. inversion Hp; subst. split.
      * cbn [spawned printed]. exact Hshape.
      * right. right. split; [reflexivity|].
        do 4 eexists. split; [exact Hf|]. split; [exact Hb|].
        unfold printed, success_lines. cbn [fs stdout spawned].
        rewrite <- app_assoc. reflexivity.
    + inversion Hp; subst. split; [exact Hshape | left; reflexivity].
  - split; [|right; left; eauto].
    destruct Has as [(Hna & Hr & ->)|(Hna & Hs2)].
    + inversion Hr; subst a.
      destruct Hbs as [Hs3|Hs3]; rewrite Hs3, Hs1.
      * eexists. split; [reflexivity|]. right. exists fps. auto.
      * eexists. rewrite <- app_assoc. split; [reflexivity|].
        right. exists fps. split; [exact Hfps|]. right. right.
        exists (sound_file args false wav), (fs w1). left.
        split; [exact Hna|]. split; [|reflexivity].
        unfold sound_file. rewrite Hna. reflexivity.
    + destruct Hbs as [Hs3|Hs3]; rewrite Hs3, Hs2, Hs1, <- ?app_assoc.
      * eexists. split; [reflexivity|]. right. exists fps.
        split; [exact Hfps|]. right. left. auto.
      * eexists. split; [reflexivity|]. right. exists fps.
        split; [exact Hfps|]. right. right.
        exists (sound_file args a wav), (fs w2). right. auto.
Qed.

Lemma try_pipeline_cases host args w0 r w' :
  let conv := new_converter host (repo args) in
  let wav := joinpath (repo_path conv) "sound.wav" in
  try_except (pipeline host args conv wav) (on_exception host) w0 = (r, w') →
  (∃ new, spawned w' = spawned w0 ++ new ∧ pipeline_spawns host args new)
  ∧ (r = SysExit 1
     ∨ (r = Return tt
        ∧ ∃ w1 w2 w3 sound,
            extract_frames host conv (input args) (config args)
                           (fps_multiplier args) w0 = (Return true, w1)
            ∧ build_rom host conv (output args) (config args)
                        (fps_multiplier args) sound w2 = (Return true, w3)
            ∧ w' = printed (success_lines args) w3)).
Proof.
  intros conv wav. unfold try_except.
  destruct (pipeline host args conv wav w0) as [rp wp] eqn:Hp.
  destruct (pipeline_body_cases _ _ _ _ _ Hp)
    as [Hshape [->|[[e ->]|[-> Hok]]]]; intros H.
  - inversion H; subst. split; [exact Hshape | left; reflexivity].
  - unfold on_exception in H. rewrite bind_print in H. inversion H; subst.
    split; [exact Hshape | left; reflexivity].
  - inversion H; subst. split; [exact Hshape | right; auto].
Qed.

Lemma check_dependencies_verdict_same host w1 w2 :
  (check_dependencies host w1).1 = (check_dependencies host w2).1.
Proof.
  unfold check_dependencies.
  destruct (missing_dependencies host);
    [destruct (importable host "PIL");
       [destruct (importable host "soundfile")|]|]; reflexivity.
Qed.

(** Every run of [main]: how far it gets before the [try] statement. *)
Lemma main_cases host args w r w' :
  let conv := new_converter host (repo args) in
  let wav := joinpath (repo_path conv) "sound.wav" in
  main host args w = (r, w') →
  (fs w !! abspath host (input args) = None
   ∧ r = SysExit 1
   ∧ w' = printed ["❌ Error: Input file '" +:+ input args
                   +:+ "' not found"] w)
  ∨ (is_Some (fs w !! abspath host (input args))
     ∧ (((∃ e, r = Raise e) ∧ spawned w' = spawned w
         ∧ (fs w' = fs w ∨ (check_dependencies host w).1 = Return true))
        ∨ ((check_dependencies host w).1 = Return false
           ∧ r = SysExit 1 ∧ fs w' = fs w ∧ spawned w' = spawned w)
        ∨ ((check_dependencies host w).1 = Return true
           ∧ ∃ w0, spawned w0 = spawned w
                   ∧ try_except (pipeline host args conv wav)
                                (on_exception host) w0 = (r, w')))).
Proof.
  intros conv wav H. unfold main in H.
  rewrite (bind_return (path_exists (abspath host (input args))) _ w
             (bool_decide (is_Some (fs w !! abspath host (input args)))) w
             eq_refl) in H.
  destruct (bool_decide (is_Some (fs w !! abspath host (input args))))
    eqn:Hin; cbn [negb] in H.
  2:{ left. rewrite bind_print in H. inversion H; subst.
    apply bool_decide_eq_false in Hin.
    destruct (fs w !! abspath host (input args)) eqn:E;
      [exfalso; apply Hin; eauto | auto]. }
  right. apply bool_decide_eq_true in Hin. split; [exact Hin|].
  destruct (truediv 30 (fps_multiplier args)) as [e|target_fps] eqn:Hfps.
  { left. inversion H; subst. split; [eauto|]. split; [reflexivity|].
    left. reflexivity. }
  rewrite (bind_return (lift_exn (inr target_fps)) _ w target_fps w eq_refl)
    in H.
  rewrite !bind_print, !printed_printed in H. cbn [app] in H.
  destruct (config_names !! config args) as [name|] eqn:Hname.
  2:{ left. inversion H; subst. split; [eauto|]. split; [reflexivity|].
      left. reflexivity. }
  match type of H with
  | (?m ≫= _) ?W = _ => rewrite (bind_return m _ W name W eq_refl) in H
  end.
  rewrite !bind_print, !printed_printed in H. cbn [app] in H.
  match type of H with
  | (check_dependencies host ≫= _) ?W = _ =>
      destruct (check_dependencies_outcome host W) as (v & Hv);
      pose proof (check_dependencies_verdict_same host w W) as Hsame;
      rewrite Hv in Hsame; cbn [fst] in Hsame;
      rewrite (bind_return _ _ _ _ _ Hv) in H
  end.
  destruct v; cbn [negb] in H.
  2:{ right. left. inversion H; subst. auto. }
  rewrite bind_print, !printed_printed in H.
  apply bind_inv in H as [(u & w0 & Hpatch & H)|[(e & Hpatch & ->)|(c & Hpatch & ->)]];
    apply patch_step_any in Hpatch as [Hs Hr].
  - right. right. split; [exact Hsame|].
    exists w0. split; [exact Hs | exact H].
  - left. split; [eauto|]. split; [exact Hs | right; exact Hsame].
  - destruct Hr as [?|[? ?]]; discriminate.
Qed.

(** X12. With an input path that does not exist [main] prints the error
    and exits with status 1 at once: nothing else is printed, no file is
    touched and no command is started. *)
Theorem main_missing_input (host : Host) (args : Args) (w : world) :
  fs w !! abspath host (input args) = None →
  main host args w
  = (SysExit 1,
     printed ["❌ Error: Input file '" +:+ input args +:+ "' not found"] w).
Proof.
  intros H. unfold main.
  rewrite (bind_return (path_exists (abspath host (input args))) _ w
             false w)
    by (cbv [path_exists mbind M_bind get_fs mret M_ret];
        rewrite H, bool_decide_false by (intros [? ?]; discriminate);
        reflexivity).
  cbn [negb]. rewrite bind_print. reflexivity.
Qed.

Lemma main_missing_input_sample :
  fs fresh_world !! abspath sample_host (input sample_args) = None
  ∧ exit_status (main sample_host sample_args fresh_world).1 = 1%Z
  ∧ spawned (main sample_host sample_args fresh_world).2 = [].
Proof.
  split; [reflexivity|].
  rewrite (main_missing_input sample_host sample_args fresh_world eq_refl).
  split; reflexivity.
Defined.


(** X14. The commands a run of [main] starts are, in this order, the
    frame extraction, the audio extraction and [make], each at most once;
    the run may stop after any of them, the audio extraction is left out
    exactly when audio is disabled, and [make] then gets no sound file. *)
Theorem main_spawns_in_order (host : Host) (args : Args) (w : world) :
  ∃ new,
    spawned (main host args w).2 = spawned w ++ new
    ∧ pipeline_spawns host args new.
Proof.
  destruct (main host args w) as [r w'] eqn:H. cbn [snd].
  destruct (main_cases _ _ _ _ _ H)
    as [(_ & _ & ->)|(_ & [(_ & Hs & _)|[(_ & _ & _ & Hs)|(_ & w0 & Hs & Ht)]])].
  - exists []. rewrite app_nil_r. split; [reflexivity | left; reflexivity].
  - exists []. rewrite app_nil_r. split; [exact Hs | left; reflexivity].
  - exists []. rewrite app_nil_r. split; [exact Hs | left; reflexivity].
  - destruct (try_pipeline_cases _ _ _ _ _ Ht) as [(new & Hn & Hshape) _].
    exists new. rewrite Hn, Hs. auto.
Qed.

(** X15. [main] returns normally only if the input existed, the
    dependency check passed, [extract_frames] returned [True] and
    [build_rom] returned [True]; the success lines are then the last
    thing printed and nothing changes after the build. *)
Theorem main_success (host : Host) (args : Args) (w w' : world) :
  let conv := new_converter host (repo args) in
  main host args w = (Return tt, w') →
  is_Some (fs w !! abspath host (input args))
  ∧ (check_dependencies host w).1 = Return true
  ∧ ∃ w0 w1 w2 w3 sound,
      extract_frames host conv (input args) (config args)
                     (fps_multiplier args) w0 = (Return true, w1)
      ∧ build_rom host conv (output args) (config args)
                  (fps_multiplier args) sound w2 = (Return true, w3)
      ∧ w' = printed (success_lines args) w3.
Proof.
  intros conv H.
  destruct (main_cases _ _ _ _ _ H)
    as [(_ & Hr & _)|(Hin & [([e Hr] & _)|[(_ & Hr & _)|(Hd & w0 & _ & Ht)]])];
    try discriminate.
  split; [exact Hin|]. split; [exact Hd|].
  destruct (try_pipeline_cases _ _ _ _ _ Ht)
    as [_ [Hr|(_ & w1 & w2 & w3 & sound & Hf & Hb & Hw)]]; [discriminate|].
  exists w0, w1, w2, w3, sound. auto.
Qed.

Lemma main_success_sample :
  main sample_host sample_args sample_world
  = (Return tt, (main sample_host sample_args sample_world).2)
  ∧ (check_dependencies sample_host sample_world).1 = Return true.
Proof.
  assert (H : main sample_host sample_args sample_world
              = (Return tt, (main sample_host sample_args sample_world).2))
    by (vm_compute; reflexivity).
  split; [exact H|].
  exact (proj1 (proj2 (main_success sample_host sample_args sample_world
                         _ H))).
Defined.

(** X16. When the dependency check fails, [main] never gets to the
    patcher or to a stage: no file is changed and no command is started,
    and the process ends with status 1 (by [sys.exit], or by the exception
    of line 283 or 290 raised before the check). *)
Theorem failed_dependency_check_stops_main
    (host : Host) (args : Args) (w : world) :
  (check_dependencies host w).1 = Return false →
  let r := (main host args w).1 in
  let w' := (main host args w).2 in
  fs w' = fs w ∧ spawned w' = spawned w
  ∧ (r = SysExit 1 ∨ ∃ e, r = Raise e)
  ∧ exit_status r = 1%Z.
Proof.
  intros Hd. cbv zeta.
  destruct (main host args w) as [r w'] eqn:H. cbn [fst snd].
  destruct (main_cases _ _ _ _ _ H)
    as [(_ & -> & ->)
       |(_ & [([e ->] & Hs & [Hf|Ht])|[(_ & -> & Hf & Hs)|(Ht & _)]])];
    try (rewrite Hd in Ht; discriminate).
  - repeat split; auto.
  - repeat split; eauto.
  - repeat split; auto.
Qed.

Lemma failed_dependency_check_stops_main_sample :
  (check_dependencies bare_host sample_world).1 = Return false
  ∧ (main bare_host sample_args sample_world).1 = SysExit 1
  ∧ fs (main bare_host sample_args sample_world).2 = fs sample_world.
Proof.
  split; [reflexivity|].
  destruct (failed_dependency_check_stops_main bare_host sample_args
              sample_world eq_refl) as (Hf & _ & _ & _).
  split; [vm_compute; reflexivity | exact Hf].
Defined.

(** * Further properties: audio, line ends, the pattern *)

Lemma bind_raise {A B} (m : M A) (k : A → M B) w e w' :
  m w = (Raise e, w') → (m ≫= k) w = (Raise e, w').
Proof. intros H. cbv [mbind M_bind]. rewrite H. reflexivity. Qed.

Lemma build_rom_spawns_make host self output_rom config pulldown sound w :
  is_Some (fs w !! makefile self) →
  spawned (build_rom host self output_rom config pulldown sound w).2
  = spawned w
    ++ [Spawn (make_cmd host config pulldown sound (fs w))
              (Some (repo_path self))].
Proof.
  intros Hm.
  destruct (build_rom host self output_rom config pulldown sound w)
    as [r w'] eqn:H.
  unfold build_rom in H. run_hyp H.
  rewrite bool_decide_true in H by exact Hm. cbn [negb] in H.
  stage_cases H; reflexivity.
Qed.

(** X17. When audio is enabled, its extraction returns [True] and the
    waveform file and the [Makefile] exist at that point, [make] is
    started with a [SOUND] word that names [sound.wav] in the repository,
    after the three fixed words. *)
Theorem audio_success_passes_sound
    (host : Host) (args : Args) (w0 w1 w2 : world) :
  let conv := new_converter host (repo args) in
  let wav := joinpath (repo_path conv) "sound.wav" in
  no_audio args = false →
  extract_frames host conv (input args) (config args) (fps_multiplier args)
                 w0 = (Return true, w1) →
  extract_audio host conv (input args) wav w1 = (Return true, w2) →
  is_Some (fs w2 !! wav) →
  is_Some (fs w2 !! makefile conv) →
  spawned (pipeline host args conv wav w0).2
  = spawned w2
    ++ [Spawn [ "make"; "CONFIG=" +:+ str_int (config args);
                "PULLDOWN=" +:+ str_float host (fps_multiplier args);
                "FRAMEEXT=bmp"; "SOUND=" +:+ path_str wav ]
              (Some (repo_path conv))].
Proof.
  intros conv wav Hna Hf Ha Hwav Hmk. unfold pipeline.
  rewrite (bind_return _ _ _ true w1 Hf). cbn [negb]. rewrite Hna. cbn [negb].
  rewrite (bind_return _ _ w1 true w2)
    by (rewrite (bind_return _ _ _ true w2 Ha); reflexivity).
  rewrite !bind_print, !printed_printed. cbn [app].
  unfold sound_file. rewrite Hna. cbn [negb andb].
  match goal with
  | |- spawned ((build_rom ?h ?c ?o ?cf ?p ?s ≫= ?k) ?W).2 = _ =>
      pose proof (build_rom_spawns_make h c o cf p s W Hmk) as Hs;
      destruct (build_rom h c o cf p s W) as [[b|e|code] w3] eqn:Hb
  end; cbn [snd fs spawned printed] in Hs.
  - rewrite (bind_return _ _ _ b w3 Hb). destruct b; cbn [negb].
    + rewrite !bind_print, !printed_printed. cbn. rewrite Hs.
      unfold make_cmd. rewrite bool_decide_true by exact Hwav. reflexivity.
    + cbn. rewrite Hs.
      unfold make_cmd. rewrite bool_decide_true by exact Hwav. reflexivity.
  - rewrite (bind_raise _ _ _ e w3 Hb). cbn. rewrite Hs.
    unfold make_cmd. rewrite bool_decide_true by exact Hwav. reflexivity.
  - exfalso.
    destruct (build_rom_any _ _ _ _ _ _ _ _ _ Hb) as [[[? ?]|[? ?]] _];
      discriminate.
Qed.

Lemma audio_success_passes_sound_sample :
  no_audio sample_args = false
  ∧ spawned (pipeline sound_host sample_args
               (new_converter sound_host ".") ["work"; "sound.wav"]
               sample_world).2
    = [ Spawn (frames_cmd sound_host "in.mp4" ["work"; "frames"] 160 72
                          30%float) None;
        Spawn (audio_cmd "in.mp4" ["work"; "sound.wav"]) None;
        Spawn ["make"; "CONFIG=0"; "PULLDOWN=1.0"; "FRAMEEXT=bmp";
               "SOUND=/work/sound.wav"] (Some ["work"]) ].
Proof.
  split; [reflexivity|].
  refine (eq_trans
            (audio_success_passes_sound sound_host sample_args sample_world
               (extract_frames sound_host (new_converter sound_host ".")
                  "in.mp4" 0 1%float sample_world).2
               (extract_audio sound_host (new_converter sound_host ".")
                  "in.mp4" ["work"; "sound.wav"]
                  (extract_frames sound_host (new_converter sound_host ".")
                     "in.mp4" 0 1%float sample_world).2).2
               _ _ _ _ _) _).
  - reflexivity.
  - vm_compute. reflexivity.
  - vm_compute. reflexivity.
  - vm_compute. eexists. reflexivity.
  - vm_compute. eexists. reflexivity.
  - vm_compute. reflexivity.
Defined.

(** X18. On a POSIX host, what the patcher writes has no carriage return:
    a file with DOS line ends is written back with plain line feeds, while
    its backup keeps the text as it was on disk. *)
Theorem patcher_writes_unix_line_ends
    (host : Host) (repo : string) (w : world) (data : pystr) :
  let self := new_converter host repo in
  let w' := (patch_rgbds_syntax self w).2 in
  fs w !! video_asm self = Some (File data) →
  already_patched (universal_newlines data) = false →
  fs w !! backup_of self = None →
  (∃ text, fs w' !! video_asm self = Some (File text)
           ∧ (CR ∉ text)
           ∧ text = patched_text (universal_newlines data))
  ∧ fs w' !! backup_of self = Some (File data).
Proof.
  cbv zeta. pose proof (backup_is_another_file host repo) as Hne.
  revert Hne. generalize (new_converter host repo). intros self Hne Hw Hp Hb.
  rewrite (patch_now self w data Hne Hw Hp). cbn [snd fs updated]. split.
  - eexists. split; [apply lookup_insert_eq|]. split; [|reflexivity].
    intros Hin. apply patched_text_chars in Hin as [Hin|[Hin|Hin]].
    + exact (universal_newlines_free data Hin).
    + apply DEF_chars in Hin as [_ Hc]. congruence.
    + discriminate.
  - rewrite lookup_insert_ne by congruence. unfold backed_up.
    rewrite Hb. apply lookup_insert_eq.
Qed.

Lemma patcher_writes_unix_line_ends_sample :
  CR ∈ crlf_asm
  ∧ fs (patch_rgbds_syntax sample_converter (world_with_asm crlf_asm)).2
       !! backup_of sample_converter = Some (File crlf_asm)
  ∧ fs (patch_rgbds_syntax sample_converter (world_with_asm crlf_asm)).2
       !! video_asm sample_converter
    = Some (File (lit "DEF A EQU 1
;")).
Proof.
  split; [unfold crlf_asm, CR; repeat constructor|].
  destruct (patcher_writes_unix_line_ends sample_host "."
              (world_with_asm crlf_asm) crlf_asm eq_refl eq_refl eq_refl)
    as [(text & Htext & _ & ->) Hbak].
  split; [exact Hbak | exact Htext].
Defined.

(** X19. On a line without a line feed the regular expression of line 66
    matches exactly the lines of the shape "whitespace, identifier,
    whitespace, EQU, whitespace, rest", and its three groups are the
    indentation, the identifier and everything after it. *)
Theorem re_match_equ_is_the_pattern (line indent symbol rest : pystr) :
  LF ∉ line →
  (re_match_equ line = Some (indent, symbol, rest)
   ↔ matches_pattern line indent symbol rest).
Proof.
  intros Hfree. split.
  - apply re_match_equ_sound. exact Hfree.
  - apply re_match_equ_complete. exact Hfree.
Qed.

Lemma re_match_equ_is_the_pattern_sample :
  (LF ∉ lit "X_1	EQU $FF")
  ∧ matches_pattern (lit "X_1	EQU $FF") [] (lit "X_1") (lit "	EQU $FF").
Proof.
  assert (Hfree : LF ∉ lit "X_1	EQU $FF").
  { intros H. vm_compute in H.
    repeat (apply elem_of_cons in H as [H|H]; [discriminate|]).
    inversion H. }
  split; [exact Hfree|].
  apply (re_match_equ_is_the_pattern _ _ _ _ Hfree). reflexivity.
Defined.
